(** * Splunk firehose nozzle: the forwarding loop, its event builders and
      the sink wiring

    A shallow embedding of [nozzle/nozzle.go] (the [SplunkNozzle] forwarder:
    [NewSplunkForwarder], [Run], [handleEvent], the [Build...Metric]
    functions, [nanoSecondsToSeconds], [uuidToHex]) and of the
    [SplunkFirehoseNozzle] of the [splunknozzle] package ([EventSink],
    [EventRouter], [AppCache], [Metric] and the main goroutine of [Run]),
    followed by the properties proved about them.

    Conventions.
    - Go integers are [Z]; where the code can wrap, the wrap-around is
      written out.
    - [float64] is [spec_float] at precision 53, the IEEE-754 binary64
      specification of the standard library; every operation rounds to
      nearest, ties to even, as the hardware does.
    - [[]byte] is a list of bytes; a Go string is a [string].
    - A [select] loop is run against the list of the communications it
      receives, in the order the runtime picks them. *)

From Stdlib Require Import ZArith List String Ascii Bool Lia.
From Stdlib Require Import SpecFloat DecimalString.
From stdpp Require Import gmap strings list.

Open Scope Z_scope.

(** ** Text *)

Module Text.

(** [strconv.Itoa] on a natural number. *)
Definition itoa (n : Z) : string :=
  NilZero.string_of_uint (N.to_uint (Z.to_N n)).

Definition digit (d : Z) : ascii :=
  ascii_of_nat (48 + Z.to_nat d).

Definition is_digit (c : ascii) : bool :=
  let n := nat_of_ascii c in ((48 <=? n) && (n <=? 57))%nat.

Fixpoint all_digits (s : string) : bool :=
  match s with
  | EmptyString => true
  | String c s' => is_digit c && all_digits s'
  end.

(** Recognises [ddd] at the end of a string. *)
Definition three_digits (s : string) : bool :=
  match s with
  | String a (String b (String c EmptyString)) =>
      is_digit a && is_digit b && is_digit c
  | _ => false
  end.

(** Recognises [d...d.ddd]; [seen] tells whether an integer digit has been
    read already. *)
Fixpoint digits_point_three (seen : bool) (s : string) : bool :=
  match s with
  | EmptyString => false
  | String c s' =>
      if Ascii.eqb c "."%char then seen && three_digits s'
      else is_digit c && digits_point_three true s'
  end.

(** A fixed-point decimal with exactly three fractional digits and an
    optional minus sign. *)
Definition is_fixed3 (s : string) : bool :=
  match s with
  | String "-"%char s' => digits_point_three false s'
  | _ => digits_point_three false s
  end.

End Text.

(** ** binary64 *)

Module Float64.

Definition prec : Z := 53.
Definition emax : Z := 1024.

(** The conversion [float64(n)] of an integer. *)
Definition of_int (n : Z) : spec_float := binary_normalize prec emax n 0 false.

Definition mul : spec_float -> spec_float -> spec_float := SFmul prec emax.
Definition div : spec_float -> spec_float -> spec_float := SFdiv prec emax.

(** [math.Pow(1000, -3)]. Go's [Pow] multiplies up the integer power on the
    [Frexp] fraction of [x] (exactly, for 1000 cubed), takes one rounded
    reciprocal for the negative exponent and rescales by a power of two:
    the result is the correctly rounded quotient of 1 by 1000 cubed. *)
Definition Pow_1000_neg3 : spec_float := div (of_int 1) (of_int (1000 ^ 3)).

(** [a / d] rounded to the nearest integer, ties to even ([0 < d]). *)
Definition div_nearest_even (a d : Z) : Z :=
  let q := a / d in
  let r := a mod d in
  match 2 * r ?= d with
  | Lt => q
  | Gt => q + 1
  | Eq => if Z.even q then q else q + 1
  end.

(** The magnitude [m * 2^e] in thousandths, rounded to nearest even on its
    exact value, as [strconv] rounds the exact decimal expansion. *)
Definition thousandths (m : positive) (e : Z) : Z :=
  if 0 <=? e then Zpos m * 2 ^ e * 1000
  else div_nearest_even (Zpos m * 1000) (2 ^ (- e)).

Definition fixed3 (neg : bool) (n : Z) : string :=
  (if neg then "-" else "")
    +:+ Text.itoa (n / 1000) +:+ "."
    +:+ String (Text.digit (n mod 1000 / 100))
          (String (Text.digit (n mod 100 / 10))
             (String (Text.digit (n mod 10)) EmptyString)).

(** [fmt.Sprintf("%.3f", x)]. *)
Definition Sprintf_3f (x : spec_float) : string :=
  match x with
  | S754_nan => "NaN"
  | S754_infinity s => if s then "-Inf" else "+Inf"
  | S754_zero s => fixed3 s 0
  | S754_finite s m e => fixed3 s (thousandths m e)
  end.

End Float64.

(** ** [nanoSecondsToSeconds] *)

Definition nanoSecondsToSeconds (nanoseconds : Z) : string :=
  let seconds := Float64.mul (Float64.of_int nanoseconds) Float64.Pow_1000_neg3 in
  Float64.Sprintf_3f seconds.

(** The reading of the conversion as a truncation: whole seconds, then the
    milliseconds of the remainder, the digits below dropped. *)
Definition truncated_seconds (nanoseconds : Z) : string :=
  Float64.fixed3 (nanoseconds <? 0) (Z.abs nanoseconds / 1000000).

Definition int64_range (n : Z) : Prop := - 2 ^ 63 <= n < 2 ^ 63.

(** ** [uuidToHex] *)

(** [events.UUID] of sonde-go: two required [uint64] fields. *)
Record UUID := { Low : Z; High : Z }.

Module Bytes.

(** [binary.Write(buffer, binary.LittleEndian, v)] for a [uint64]: the eight
    bytes of [v], least significant first. *)
Definition PutUint64_le (v : Z) : list Z :=
  map (fun i => Z.land (Z.shiftr v (8 * Z.of_nat i)) 255) (seq 0 8).

(** The slice [b[lo:hi]]. *)
Definition slice {A} (lo hi : nat) (b : list A) : list A :=
  firstn (hi - lo) (skipn lo b).

Definition hextable : string := "0123456789abcdef".

Definition hexdigit (n : Z) : ascii :=
  match String.get (Z.to_nat n) hextable with
  | Some c => c
  | None => zero
  end.

(** [hex.Encode(dst, src)], the bytes it produces: two characters of
    [hextable] per source byte, high nibble first. *)
Definition hex_Encode (src : list Z) : list ascii :=
  flat_map (fun v => [hexdigit (Z.shiftr v 4); hexdigit (Z.land v 15)]) src.

(** Writing [src] into [dst] from offset [off] on, [dst] keeping its
    length. *)
Fixpoint write_at {A} (off : nat) (src dst : list A) : list A :=
  match dst with
  | [] => []
  | d :: dst' =>
      match off with
      | S off' => d :: write_at off' src dst'
      | O =>
          match src with
          | [] => dst
          | c :: src' => c :: write_at O src' dst'
          end
      end
  end.

End Bytes.

Definition dashByte : ascii := "-"%char.

Definition uuidToHex (uuid : option UUID) : string :=
  match uuid with
  | None => ""
  | Some uuid =>
      let bufferBytes := Bytes.PutUint64_le (Low uuid) ++ Bytes.PutUint64_le (High uuid) in
      let hexBuffer := repeat zero 36 in
      let hexBuffer := Bytes.write_at 0 (Bytes.hex_Encode (Bytes.slice 0 4 bufferBytes)) hexBuffer in
      let hexBuffer := Bytes.write_at 8 [dashByte] hexBuffer in
      let hexBuffer := Bytes.write_at 9 (Bytes.hex_Encode (Bytes.slice 4 6 bufferBytes)) hexBuffer in
      let hexBuffer := Bytes.write_at 13 [dashByte] hexBuffer in
      let hexBuffer := Bytes.write_at 14 (Bytes.hex_Encode (Bytes.slice 6 8 bufferBytes)) hexBuffer in
      let hexBuffer := Bytes.write_at 18 [dashByte] hexBuffer in
      let hexBuffer := Bytes.write_at 19 (Bytes.hex_Encode (Bytes.slice 8 10 bufferBytes)) hexBuffer in
      let hexBuffer := Bytes.write_at 23 [dashByte] hexBuffer in
      let hexBuffer := Bytes.write_at 24 (Bytes.hex_Encode (Bytes.slice 10 16 bufferBytes)) hexBuffer in
      string_of_list_ascii hexBuffer
  end.

(** The canonical text layout of an identifier: 36 characters, a dash at
    offsets 8, 13, 18 and 23, a lowercase hexadecimal digit everywhere
    else. *)
Definition is_lower_hex (c : ascii) : bool :=
  existsb (Ascii.eqb c) (list_ascii_of_string Bytes.hextable).

Definition is_dash_offset (i : nat) : bool :=
  existsb (Nat.eqb i) [8; 13; 18; 23]%nat.

Definition is_canonical_uuid_text (s : string) : bool :=
  let l := list_ascii_of_string s in
  (length l =? 36)%nat
  && forallb (fun ic => if is_dash_offset (fst ic) then Ascii.eqb (snd ic) dashByte
                        else is_lower_hex (snd ic))
       (combine (seq 0 (length l)) l).

(** ** The firehose messages (package [events] of sonde-go)

    The generated protobuf types. A message field that the code only reads
    through its nil-safe getter is held by the value the getter returns (the
    type's zero value, or the first enumerator, when the field is unset); a
    payload is a pointer the code reads both directly and through getters, so
    it is an [option], and a getter on an absent payload returns the default
    of its field. Enumerations other than the envelope kind are carried as
    their number. *)

Module events.

Inductive Envelope_EventType :=
| Envelope_HttpStart
| Envelope_HttpStop
| Envelope_HttpStartStop
| Envelope_LogMessage
| Envelope_ValueMetric
| Envelope_CounterEvent
| Envelope_Error
| Envelope_ContainerMetric.

(** [Envelope_EventType.String]: the name of the enumerator. *)
Definition Envelope_EventType_String (t : Envelope_EventType) : string :=
  match t with
  | Envelope_HttpStart => "HttpStart"
  | Envelope_HttpStop => "HttpStop"
  | Envelope_HttpStartStop => "HttpStartStop"
  | Envelope_LogMessage => "LogMessage"
  | Envelope_ValueMetric => "ValueMetric"
  | Envelope_CounterEvent => "CounterEvent"
  | Envelope_Error => "Error"
  | Envelope_ContainerMetric => "ContainerMetric"
  end.

Definition Envelope_EventType_ordinal (t : Envelope_EventType) : nat :=
  match t with
  | Envelope_HttpStart => 0
  | Envelope_HttpStop => 1
  | Envelope_HttpStartStop => 2
  | Envelope_LogMessage => 3
  | Envelope_ValueMetric => 4
  | Envelope_CounterEvent => 5
  | Envelope_Error => 6
  | Envelope_ContainerMetric => 7
  end%nat.

Definition Envelope_EventType_of_ordinal (n : nat) : Envelope_EventType :=
  match n with
  | 0 => Envelope_HttpStart
  | 1 => Envelope_HttpStop
  | 2 => Envelope_HttpStartStop
  | 3 => Envelope_LogMessage
  | 4 => Envelope_ValueMetric
  | 5 => Envelope_CounterEvent
  | 6 => Envelope_Error
  | _ => Envelope_ContainerMetric
  end%nat.

#[global] Instance Envelope_EventType_eq_dec : EqDecision Envelope_EventType.
Proof. solve_decision. Defined.

#[global] Instance Envelope_EventType_countable : Countable Envelope_EventType.
Proof.
  refine (inj_countable' Envelope_EventType_ordinal Envelope_EventType_of_ordinal _).
  intros []; reflexivity.
Defined.

(** The names of the other enumerations ([PeerType], [Method],
    [LogMessage_MessageType]) by number: the tables of the generated code,
    which differ between versions of the library. *)
Class EnumNames := {
  PeerType_String : Z -> string;
  Method_String : Z -> string;
  LogMessage_MessageType_String : Z -> string
}.

Module HttpStartStop.
Record t := {
  StartTimestamp : Z;
  StopTimestamp : Z;
  RequestId : option UUID;
  PeerType : Z;
  Method : Z;
  Uri : string;
  RemoteAddress : string;
  UserAgent : string;
  StatusCode : Z;
  ContentLength : Z;
  ApplicationId : option UUID;
  InstanceIndex : Z;
  Forwarded : list string
}.
Definition GetStartTimestamp (m : option t) : Z := from_option StartTimestamp 0 m.
Definition GetStopTimestamp (m : option t) : Z := from_option StopTimestamp 0 m.
Definition GetRequestId (m : option t) : option UUID := from_option RequestId None m.
Definition GetPeerType (m : option t) : Z := from_option PeerType 1 m.
Definition GetMethod (m : option t) : Z := from_option Method 1 m.
Definition GetUri (m : option t) : string := from_option Uri "" m.
Definition GetRemoteAddress (m : option t) : string := from_option RemoteAddress "" m.
Definition GetUserAgent (m : option t) : string := from_option UserAgent "" m.
Definition GetStatusCode (m : option t) : Z := from_option StatusCode 0 m.
Definition GetContentLength (m : option t) : Z := from_option ContentLength 0 m.
Definition GetApplicationId (m : option t) : option UUID := from_option ApplicationId None m.
Definition GetInstanceIndex (m : option t) : Z := from_option InstanceIndex 0 m.
Definition GetForwarded (m : option t) : list string := from_option Forwarded [] m.
End HttpStartStop.

Module LogMessage.
Record t := {
  Message : string;
  MessageType : Z;
  Timestamp : Z;
  AppId : string;
  SourceType : string;
  SourceInstance : string
}.
Definition GetMessage (m : option t) : string := from_option Message "" m.
Definition GetMessageType (m : option t) : Z := from_option MessageType 1 m.
Definition GetTimestamp (m : option t) : Z := from_option Timestamp 0 m.
Definition GetAppId (m : option t) : string := from_option AppId "" m.
Definition GetSourceType (m : option t) : string := from_option SourceType "" m.
Definition GetSourceInstance (m : option t) : string := from_option SourceInstance "" m.
End LogMessage.

Module ValueMetric.
Record t := { Name : string; Value : spec_float; Unit : string }.
Definition GetName (m : option t) : string := from_option Name "" m.
Definition GetValue (m : option t) : spec_float := from_option Value (S754_zero false) m.
Definition GetUnit (m : option t) : string := from_option Unit "" m.
End ValueMetric.

Module CounterEvent.
Record t := { Name : string; Delta : Z; Total : Z }.
Definition GetName (m : option t) : string := from_option Name "" m.
Definition GetDelta (m : option t) : Z := from_option Delta 0 m.
Definition GetTotal (m : option t) : Z := from_option Total 0 m.
End CounterEvent.

Module Error.
Record t := { Source : string; Code : Z; Message : string }.
Definition GetSource (m : option t) : string := from_option Source "" m.
Definition GetCode (m : option t) : Z := from_option Code 0 m.
Definition GetMessage (m : option t) : string := from_option Message "" m.
End Error.

Module ContainerMetric.
Record t := {
  ApplicationId : string;
  InstanceIndex : Z;
  CpuPercentage : spec_float;
  MemoryBytes : Z;
  DiskBytes : Z
}.
Definition GetApplicationId (m : option t) : string := from_option ApplicationId "" m.
Definition GetInstanceIndex (m : option t) : Z := from_option InstanceIndex 0 m.
Definition GetCpuPercentage (m : option t) : spec_float :=
  from_option CpuPercentage (S754_zero false) m.
Definition GetMemoryBytes (m : option t) : Z := from_option MemoryBytes 0 m.
Definition GetDiskBytes (m : option t) : Z := from_option DiskBytes 0 m.
End ContainerMetric.

Module Envelope.
Record t := {
  EventType : Envelope_EventType;
  Timestamp : Z;
  Deployment : string;
  Job : string;
  Index : string;
  Ip : string;
  HttpStartStop : option HttpStartStop.t;
  LogMessage : option LogMessage.t;
  ValueMetric : option ValueMetric.t;
  CounterEvent : option CounterEvent.t;
  Error : option Error.t;
  ContainerMetric : option ContainerMetric.t
}.
Definition GetEventType (m : t) : Envelope_EventType := EventType m.
Definition GetTimestamp (m : t) : Z := Timestamp m.
Definition GetDeployment (m : t) : string := Deployment m.
Definition GetJob (m : t) : string := Job m.
Definition GetIndex (m : t) : string := Index m.
Definition GetIp (m : t) : string := Ip m.
Definition GetCounterEvent (m : t) : option CounterEvent.t := CounterEvent m.
Definition GetContainerMetric (m : t) : option ContainerMetric.t := ContainerMetric m.

(** The envelope declares one of the kinds an event is built for and
    carries no payload of that kind. *)
Definition lacks_payload (m : t) : bool :=
  match EventType m with
  | Envelope_HttpStart | Envelope_HttpStop => false
  | Envelope_HttpStartStop => bool_decide (HttpStartStop m = None)
  | Envelope_LogMessage => bool_decide (LogMessage m = None)
  | Envelope_ValueMetric => bool_decide (ValueMetric m = None)
  | Envelope_CounterEvent => bool_decide (CounterEvent m = None)
  | Envelope_Error => bool_decide (Error m = None)
  | Envelope_ContainerMetric => bool_decide (ContainerMetric m = None)
  end.
End Envelope.

End events.

Import events.

(** ** The records sent to Splunk *)

Record CommonMetricFields := {
  Deployment : string;
  Index : string;
  EventType : string
}.

Definition CommonMetricFields_zero : CommonMetricFields :=
  {| Deployment := ""; Index := ""; EventType := "" |}.

Module SplunkHttpStartStopMetric.
Record t := {
  Common : CommonMetricFields;
  StartTimestamp : Z;
  StopTimestamp : Z;
  RequestId : string;
  PeerType : string;
  Method : string;
  Uri : string;
  RemoteAddress : string;
  UserAgent : string;
  StatusCode : Z;
  ContentLength : Z;
  ApplicationId : string;
  InstanceIndex : Z;
  Forwarded : list string
}.
Definition with_Common (c : CommonMetricFields) (m : t) : t :=
  {| Common := c;
     StartTimestamp := StartTimestamp m; StopTimestamp := StopTimestamp m;
     RequestId := RequestId m; PeerType := PeerType m; Method := Method m;
     Uri := Uri m; RemoteAddress := RemoteAddress m; UserAgent := UserAgent m;
     StatusCode := StatusCode m; ContentLength := ContentLength m;
     ApplicationId := ApplicationId m; InstanceIndex := InstanceIndex m;
     Forwarded := Forwarded m |}.
End SplunkHttpStartStopMetric.

Module SplunkLogMessageMetric.
Record t := {
  Common : CommonMetricFields;
  Message : string;
  MessageType : string;
  Timestamp : Z;
  AppId : string;
  SourceType : string;
  SourceInstance : string
}.
Definition with_Common (c : CommonMetricFields) (m : t) : t :=
  {| Common := c;
     Message := Message m; MessageType := MessageType m; Timestamp := Timestamp m;
     AppId := AppId m; SourceType := SourceType m; SourceInstance := SourceInstance m |}.
End SplunkLogMessageMetric.

Module SplunkValueMetric.
Record t := { Common : CommonMetricFields; Name : string; Value : spec_float; Unit : string }.
Definition with_Common (c : CommonMetricFields) (m : t) : t :=
  {| Common := c; Name := Name m; Value := Value m; Unit := Unit m |}.
End SplunkValueMetric.

Module SplunkCounterEventMetric.
Record t := { Common : CommonMetricFields; Name : string; Delta : Z; Total : Z }.
Definition with_Common (c : CommonMetricFields) (m : t) : t :=
  {| Common := c; Name := Name m; Delta := Delta m; Total := Total m |}.
End SplunkCounterEventMetric.

Module SplunkErrorMetric.
Record t := { Common : CommonMetricFields; Source : string; Code : Z; Message : string }.
Definition with_Common (c : CommonMetricFields) (m : t) : t :=
  {| Common := c; Source := Source m; Code := Code m; Message := Message m |}.
End SplunkErrorMetric.

Module SplunkContainerMetric.
Record t := {
  Common : CommonMetricFields;
  ApplicationId : string;
  InstanceIndex : Z;
  CpuPercentage : spec_float;
  MemoryBytes : Z;
  DiskBytes : Z
}.
Definition with_Common (c : CommonMetricFields) (m : t) : t :=
  {| Common := c;
     ApplicationId := ApplicationId m; InstanceIndex := InstanceIndex m;
     CpuPercentage := CpuPercentage m; MemoryBytes := MemoryBytes m;
     DiskBytes := DiskBytes m |}.
End SplunkContainerMetric.

(** What the [Event interface{}] field of a [SplunkEvent] holds: nothing, or
    one of the metric structs, by value. *)
Inductive EventValue :=
| EventNil
| EventHttpStartStop (m : SplunkHttpStartStopMetric.t)
| EventLogMessage (m : SplunkLogMessageMetric.t)
| EventValueMetric (m : SplunkValueMetric.t)
| EventCounterEvent (m : SplunkCounterEventMetric.t)
| EventError (m : SplunkErrorMetric.t)
| EventContainerMetric (m : SplunkContainerMetric.t).

(** [SplunkEvent], declared with the client: the fields this file sets. *)
Module SplunkEvent.
Record t := {
  Time : string;
  Host : string;
  Source : string;
  Event : EventValue
}.
Definition with_Event (v : EventValue) (e : t) : t :=
  {| Time := Time e; Host := Host e; Source := Source e; Event := v |}.

(** The common fields of the metric the event carries. *)
Definition common (e : t) : option CommonMetricFields :=
  match Event e with
  | EventNil => None
  | EventHttpStartStop m => Some (SplunkHttpStartStopMetric.Common m)
  | EventLogMessage m => Some (SplunkLogMessageMetric.Common m)
  | EventValueMetric m => Some (SplunkValueMetric.Common m)
  | EventCounterEvent m => Some (SplunkCounterEventMetric.Common m)
  | EventError m => Some (SplunkErrorMetric.Common m)
  | EventContainerMetric m => Some (SplunkContainerMetric.Common m)
  end.

(** The [eventType] of the record, as serialised. *)
Definition eventType (e : t) : option string := EventType <$> common e.
End SplunkEvent.

(** A Go [error] value: [None] is [nil]. *)
Definition error := option string.

(** The [SplunkClient] interface. A client is a state ([C]); posting a batch
    moves it to a new state and returns an error or [nil]. *)
Class SplunkClient (C : Type) := PostBatch : C -> list SplunkEvent.t -> C * error.

(** ** The event builders *)

(** [buildSplunkMetric] fills the metric's common fields through the pointer
    [shared] and returns a fresh event: the updated fields are returned with
    the event. *)
Definition buildSplunkMetric (nozzleEvent : Envelope.t) (shared : CommonMetricFields)
  : CommonMetricFields * SplunkEvent.t :=
  let shared :=
    {| Deployment := Envelope.GetDeployment nozzleEvent;
       Index := Envelope.GetIndex nozzleEvent;
       EventType := Envelope_EventType_String (Envelope.GetEventType nozzleEvent) |} in
  let splunkEvent :=
    {| SplunkEvent.Time := nanoSecondsToSeconds (Envelope.GetTimestamp nozzleEvent);
       SplunkEvent.Host := Envelope.GetIp nozzleEvent;
       SplunkEvent.Source := Envelope.GetJob nozzleEvent;
       SplunkEvent.Event := EventNil |} in
  (shared, splunkEvent).

Section Builders.
Context `{EnumNames}.

Definition BuildHttpStartStopMetric (nozzleEvent : Envelope.t) : SplunkEvent.t :=
  let startStop := Envelope.HttpStartStop nozzleEvent in
  let splunkHttpStartStopMetric :=
    {| SplunkHttpStartStopMetric.Common := CommonMetricFields_zero;
       SplunkHttpStartStopMetric.StartTimestamp := HttpStartStop.GetStartTimestamp startStop;
       SplunkHttpStartStopMetric.StopTimestamp := HttpStartStop.GetStopTimestamp startStop;
       SplunkHttpStartStopMetric.RequestId := uuidToHex (HttpStartStop.GetRequestId startStop);
       SplunkHttpStartStopMetric.PeerType := PeerType_String (HttpStartStop.GetPeerType startStop);
       SplunkHttpStartStopMetric.Method := Method_String (HttpStartStop.GetMethod startStop);
       SplunkHttpStartStopMetric.Uri := HttpStartStop.GetUri startStop;
       SplunkHttpStartStopMetric.RemoteAddress := HttpStartStop.GetRemoteAddress startStop;
       SplunkHttpStartStopMetric.UserAgent := HttpStartStop.GetUserAgent startStop;
       SplunkHttpStartStopMetric.StatusCode := HttpStartStop.GetStatusCode startStop;
       SplunkHttpStartStopMetric.ContentLength := HttpStartStop.GetContentLength startStop;
       SplunkHttpStartStopMetric.ApplicationId :=
         uuidToHex (HttpStartStop.GetApplicationId startStop);
       SplunkHttpStartStopMetric.InstanceIndex := HttpStartStop.GetInstanceIndex startStop;
       SplunkHttpStartStopMetric.Forwarded := HttpStartStop.GetForwarded startStop |} in
  let '(shared, splunkEvent) :=
    buildSplunkMetric nozzleEvent (SplunkHttpStartStopMetric.Common splunkHttpStartStopMetric) in
  let splunkHttpStartStopMetric :=
    SplunkHttpStartStopMetric.with_Common shared splunkHttpStartStopMetric in
  SplunkEvent.with_Event (EventHttpStartStop splunkHttpStartStopMetric) splunkEvent.

Definition BuildLogMessageMetric (nozzleEvent : Envelope.t) : SplunkEvent.t :=
  let logMessageMetric := Envelope.LogMessage nozzleEvent in
  let splunkLogMessageMetric :=
    {| SplunkLogMessageMetric.Common := CommonMetricFields_zero;
       SplunkLogMessageMetric.Message := LogMessage.GetMessage logMessageMetric;
       SplunkLogMessageMetric.MessageType :=
         LogMessage_MessageType_String (LogMessage.GetMessageType logMessageMetric);
       SplunkLogMessageMetric.Timestamp := LogMessage.GetTimestamp logMessageMetric;
       SplunkLogMessageMetric.AppId := LogMessage.GetAppId logMessageMetric;
       SplunkLogMessageMetric.SourceType := LogMessage.GetSourceType logMessageMetric;
       SplunkLogMessageMetric.SourceInstance := LogMessage.GetSourceInstance logMessageMetric |} in
  let '(shared, splunkEvent) :=
    buildSplunkMetric nozzleEvent (SplunkLogMessageMetric.Common splunkLogMessageMetric) in
  let splunkLogMessageMetric :=
    SplunkLogMessageMetric.with_Common shared splunkLogMessageMetric in
  SplunkEvent.with_Event (EventLogMessage splunkLogMessageMetric) splunkEvent.

End Builders.

Definition BuildValueMetric (nozzleEvent : Envelope.t) : SplunkEvent.t :=
  let valueMetric := Envelope.ValueMetric nozzleEvent in
  let splunkValueMetric :=
    {| SplunkValueMetric.Common := CommonMetricFields_zero;
       SplunkValueMetric.Name := ValueMetric.GetName valueMetric;
       SplunkValueMetric.Value := ValueMetric.GetValue valueMetric;
       SplunkValueMetric.Unit := ValueMetric.GetUnit valueMetric |} in
  let '(shared, splunkEvent) :=
    buildSplunkMetric nozzleEvent (SplunkValueMetric.Common splunkValueMetric) in
  let splunkValueMetric := SplunkValueMetric.with_Common shared splunkValueMetric in
  SplunkEvent.with_Event (EventValueMetric splunkValueMetric) splunkEvent.

Definition BuildCounterEventMetric (nozzleEvent : Envelope.t) : SplunkEvent.t :=
  let counterEvent := Envelope.GetCounterEvent nozzleEvent in
  let splunkCounterEventMetric :=
    {| SplunkCounterEventMetric.Common := CommonMetricFields_zero;
       SplunkCounterEventMetric.Name := CounterEvent.GetName counterEvent;
       SplunkCounterEventMetric.Delta := CounterEvent.GetDelta counterEvent;
       SplunkCounterEventMetric.Total := CounterEvent.GetTotal counterEvent |} in
  let '(shared, splunkEvent) :=
    buildSplunkMetric nozzleEvent (SplunkCounterEventMetric.Common splunkCounterEventMetric) in
  let splunkCounterEventMetric :=
    SplunkCounterEventMetric.with_Common shared splunkCounterEventMetric in
  SplunkEvent.with_Event (EventCounterEvent splunkCounterEventMetric) splunkEvent.

Definition BuildErrorMetric (nozzleEvent : Envelope.t) : SplunkEvent.t :=
  let errorMetric := Envelope.Error nozzleEvent in
  let splunkErrorMetric :=
    {| SplunkErrorMetric.Common := CommonMetricFields_zero;
       SplunkErrorMetric.Source := Error.GetSource errorMetric;
       SplunkErrorMetric.Code := Error.GetCode errorMetric;
       SplunkErrorMetric.Message := Error.GetMessage errorMetric |} in
  let '(shared, splunkEvent) :=
    buildSplunkMetric nozzleEvent (SplunkErrorMetric.Common splunkErrorMetric) in
  let splunkErrorMetric := SplunkErrorMetric.with_Common shared splunkErrorMetric in
  SplunkEvent.with_Event (EventError splunkErrorMetric) splunkEvent.

Definition BuildContainerMetric (nozzleEvent : Envelope.t) : SplunkEvent.t :=
  let containerMetric := Envelope.GetContainerMetric nozzleEvent in
  let splunkContainerMetric :=
    {| SplunkContainerMetric.Common := CommonMetricFields_zero;
       SplunkContainerMetric.ApplicationId := ContainerMetric.GetApplicationId containerMetric;
       SplunkContainerMetric.InstanceIndex := ContainerMetric.GetInstanceIndex containerMetric;
       SplunkContainerMetric.CpuPercentage := ContainerMetric.GetCpuPercentage containerMetric;
       SplunkContainerMetric.MemoryBytes := ContainerMetric.GetMemoryBytes containerMetric;
       SplunkContainerMetric.DiskBytes := ContainerMetric.GetDiskBytes containerMetric |} in
  let '(shared, splunkEvent) :=
    buildSplunkMetric nozzleEvent (SplunkContainerMetric.Common splunkContainerMetric) in
  let splunkContainerMetric := SplunkContainerMetric.with_Common shared splunkContainerMetric in
  SplunkEvent.with_Event (EventContainerMetric splunkContainerMetric) splunkEvent.

(** ** The forwarder *)

(** [SplunkNozzle]. The two channels are not fields here: [Run] is given what
    arrives on them. The logger is the list of the lines logged so far. *)
Record SplunkNozzle (C : Type) := {
  splunkClient : C;
  includedEventTypes : gmap Envelope_EventType bool;
  batch : list SplunkEvent.t;
  logger : list string
}.
Arguments splunkClient {C} _.
Arguments includedEventTypes {C} _.
Arguments batch {C} _.
Arguments logger {C} _.

Definition with_batch {C} (b : list SplunkEvent.t) (s : SplunkNozzle C) : SplunkNozzle C :=
  {| splunkClient := splunkClient s; includedEventTypes := includedEventTypes s;
     batch := b; logger := logger s |}.

(** Indexing a Go [map[K]bool]: a missing key reads [false]. *)
Definition map_index (m : gmap Envelope_EventType bool) (k : Envelope_EventType) : bool :=
  default false (m !! k).

Definition NewSplunkForwarder {C} (splunkClient : C)
    (selectedEventTypes : list Envelope_EventType) (logger : list string) : SplunkNozzle C :=
  let includedEventTypes : gmap Envelope_EventType bool :=
    <[Envelope_ContainerMetric := false]>
      (<[Envelope_Error := false]>
         (<[Envelope_CounterEvent := false]>
            (<[Envelope_ValueMetric := false]>
               (<[Envelope_LogMessage := false]>
                  (<[Envelope_HttpStartStop := false]>
                     (<[Envelope_HttpStop := false]>
                        (<[Envelope_HttpStart := false]> ∅))))))) in
  let includedEventTypes :=
    foldl (fun m selectedEventType => <[selectedEventType := true]> m)
      includedEventTypes selectedEventTypes in
  {| splunkClient := splunkClient;
     includedEventTypes := includedEventTypes;
     batch := [];
     logger := logger |}.

(** What one iteration of the [select] in [Run] receives. *)
Inductive Received :=
| RecvError (err : error)
| RecvEvent (event : Envelope.t)
| RecvTick.

Section Forwarder.
Context `{EnumNames} `{SplunkClient C}.

Definition handleEvent (s : SplunkNozzle C) (event : Envelope.t) : SplunkNozzle C :=
  let eventType := Envelope.GetEventType event in
  if negb (map_index (includedEventTypes s) eventType) then s
  else
    let splunkEvent : option SplunkEvent.t :=
      match eventType with
      | Envelope_HttpStart => None
      | Envelope_HttpStop => None
      | Envelope_HttpStartStop => Some (BuildHttpStartStopMetric event)
      | Envelope_LogMessage => Some (BuildLogMessageMetric event)
      | Envelope_ValueMetric => Some (BuildValueMetric event)
      | Envelope_CounterEvent => Some (BuildCounterEventMetric event)
      | Envelope_Error => Some (BuildErrorMetric event)
      | Envelope_ContainerMetric => Some (BuildContainerMetric event)
      end in
    match splunkEvent with
    | Some splunkEvent => with_batch (batch s ++ [splunkEvent]) s
    | None => s
    end.

(** The [case <-ticker] branch of [Run]. The error [PostBatch] returns is
    not read. *)
Definition onTick (s : SplunkNozzle C) : SplunkNozzle C :=
  if (0 <? Z.of_nat (length (batch s))) then
    let logger :=
      logger s ++ ["Posting " +:+ Text.itoa (Z.of_nat (length (batch s))) +:+ " events"] in
    let '(splunkClient, _) := PostBatch (splunkClient s) (batch s) in
    {| splunkClient := splunkClient;
       includedEventTypes := includedEventTypes s;
       batch := [];
       logger := logger |}
  else s.

(** [Run] against the communications it receives. [Some err] is [return
    err]; [None] is the loop waiting in its [select], nothing more having
    arrived. *)
Fixpoint Run (s : SplunkNozzle C) (received : list Received)
  : SplunkNozzle C * option error :=
  match received with
  | [] => (s, None)
  | RecvError err :: _ => (s, Some err)
  | RecvEvent event :: received => Run (handleEvent s event) received
  | RecvTick :: received => Run (onTick s) received
  end.

End Forwarder.

(** ** Readings of the batching and retry policy

    The policies as the design document words them, to set against [Run]. *)

(** A batch is flushed on reaching [BatchSize]: whenever the loop waits, the
    batch it holds is shorter than [BatchSize]. *)
Definition held_below_BatchSize {C} (BatchSize : nat) (s : SplunkNozzle C) : Prop :=
  (length (batch s) < BatchSize)%nat.

(** A client that fails every post and keeps the batches it was handed, in
    order. *)
Inductive FailingClient := Attempts (batches : list (list SplunkEvent.t)).

Definition attempts (c : FailingClient) : list (list SplunkEvent.t) :=
  match c with Attempts batches => batches end.

#[global] Instance FailingClient_SplunkClient : SplunkClient FailingClient :=
  fun c batch => (Attempts (attempts c ++ [batch]), Some "post failed"%string).

(** A failed batch is attempted [Retries] times in all: flushing [b] hands
    [b] to the client [Retries] times. *)
Definition attempted_Retries_times (Retries : nat) (b : list SplunkEvent.t)
    (before after : FailingClient) : Prop :=
  attempts after = attempts before ++ repeat b Retries.

(** [strconv.Itoa] on any integer. *)
Definition Itoa (v : Z) : string :=
  if v <? 0 then "-" +:+ Text.itoa (- v) else Text.itoa v.

(** The names of the enumerators every version of the library has; a number
    without a name prints in decimal, as [proto.EnumName] does. *)
#[global] Instance names : EnumNames := {|
  PeerType_String v :=
    if v =? 1 then "Client" else if v =? 2 then "Server" else Itoa v;
  Method_String v :=
    if v =? 1 then "GET" else if v =? 2 then "POST" else if v =? 3 then "PUT"
    else if v =? 4 then "DELETE" else if v =? 5 then "HEAD" else Itoa v;
  LogMessage_MessageType_String v :=
    if v =? 1 then "OUT" else if v =? 2 then "ERR" else Itoa v
|}.

(** ** The sink wiring ([SplunkFirehoseNozzle.EventSink]) *)

Module splunknozzle.

(** The fields of [Config] that [EventSink] hands to the writers and to the
    sink. [int] is 64 bits wide; a [time.Duration] is a count of
    nanoseconds. *)
Record Config := {
  SplunkHost : string;
  SplunkToken : string;
  SplunkIndex : string;
  SkipSSLSplunk : bool;
  Debug : bool;
  Version : string;
  SplunkMetricIndex : string;
  HecWorkers : Z;
  ExtraFields : string;
  FlushInterval : Z;
  QueueSize : Z;
  BatchSize : Z;
  Retries : Z;
  JobHost : string;
  SubscriptionID : string;
  TraceLogging : bool;
  StatusMonitorInterval : Z
}.

(** [eventwriter.SplunkEvent] as [EventSink] leaves it: the name of the
    endpoint it writes to and the two counters registered for it. *)
Record Writer := {
  Host : string;
  SentEventCount : string;
  BodyBufferSize : string
}.

(** Signed 64-bit wrap-around. *)
Definition wrap_int (z : Z) : Z := (z + 2 ^ 63) mod 2 ^ 64 - 2 ^ 63.

(** [for i := 0; i < n; i++ { acc = body(i, acc) }]. *)
Definition for_lt {A} (n : Z) (body : Z -> A -> A) (acc : A) : A :=
  fold_left (fun acc i => body (Z.of_nat i) acc) (seq 0 (Z.to_nat n)) acc.

(** The goroutines [EventSink] starts itself. *)
Inductive Task := LogStatus.

(** The sink [EventSink] returns, by what was done to build it: the writers
    it was constructed from, the numbers of its configuration, that it was
    opened and registered as a log sink, and the tasks started beside
    it. The parse configuration derived from [AddAppInfo] is left out. *)
Record Sink := {
  writers : list Writer;
  sinkFlushInterval : Z;
  sinkQueueSize : Z;
  sinkBatchSize : Z;
  sinkRetries : Z;
  sinkStatusMonitorInterval : Z;
  sinkExtraFields : list (string * string);
  sinkUUID : string;
  opened : bool;
  registeredAsLogSink : bool;
  started : list Task
}.

Section EventSink.
(** [events.ParseExtraFields] and the identifier [uuid.New] draws. *)
Variable ParseExtraFields : string -> list (string * string) * error.
Variable nozzleUUID : string.

Definition EventSink (config : Config) : option Sink * error :=
  let writers :=
    for_lt (wrap_int (HecWorkers config + 1))
      (fun _ writers =>
         let splunkWriter :=
           {| Host := SplunkHost config;
              SentEventCount := "splunk.events.sent.count";
              BodyBufferSize := "splunk.events.throughput" |} in
         writers ++ [splunkWriter])
      [] in
  let '(parsedExtraFields, err) := ParseExtraFields (ExtraFields config) in
  match err with
  | Some _ => (None, err)
  | None =>
      let started :=
        if 0 <? StatusMonitorInterval config then [LogStatus] else [] in
      (Some {| writers := writers;
               sinkFlushInterval := FlushInterval config;
               sinkQueueSize := QueueSize config;
               sinkBatchSize := BatchSize config;
               sinkRetries := Retries config;
               sinkStatusMonitorInterval := StatusMonitorInterval config;
               sinkExtraFields := parsedExtraFields;
               sinkUUID := nozzleUUID;
               opened := true;
               registeredAsLogSink := true;
               started := started |}, None)
  end.
End EventSink.

End splunknozzle.

(** ** The delivery workers of the sink (package [eventsink]) *)

Module eventsink.

(** Modelled from the spec: [Splunk.Open] of package [eventsink], which
    starts the delivery workers of the sink and is not among the sources. The
    sink is built from one writer per slot of its pool. The pool size "also
    hosts the periodic status reporter" (design notes), which takes one slot
    and is "not counted against N" (event sink, contract); each of the other
    slots runs one delivery worker. *)
Definition delivery_workers (sink : splunknozzle.Sink) : nat :=
  Nat.pred (length (splunknozzle.writers sink)).

End eventsink.

(** ** Sample data for the closed examples *)

Module Sample.

Definition envelope (kind : Envelope_EventType) : Envelope.t :=
  {| Envelope.EventType := kind;
     Envelope.Timestamp := 1500000000000000000;
     Envelope.Deployment := "cf";
     Envelope.Job := "router";
     Envelope.Index := "0";
     Envelope.Ip := "10.0.0.1";
     Envelope.HttpStartStop := None;
     Envelope.LogMessage := None;
     Envelope.ValueMetric := None;
     Envelope.CounterEvent := None;
     Envelope.Error := None;
     Envelope.ContainerMetric := None |}.

(** A log message envelope with its payload. *)
Definition logEnvelope : Envelope.t :=
  {| Envelope.EventType := Envelope_LogMessage;
     Envelope.Timestamp := 1500000000000000000;
     Envelope.Deployment := "cf";
     Envelope.Job := "router";
     Envelope.Index := "0";
     Envelope.Ip := "10.0.0.1";
     Envelope.HttpStartStop := None;
     Envelope.LogMessage :=
       Some {| LogMessage.Message := "hello";
               LogMessage.MessageType := 1;
               LogMessage.Timestamp := 1500000000000000000;
               LogMessage.AppId := "app";
               LogMessage.SourceType := "APP";
               LogMessage.SourceInstance := "0" |};
     Envelope.ValueMetric := None;
     Envelope.CounterEvent := None;
     Envelope.Error := None;
     Envelope.ContainerMetric := None |}.

(** A forwarder that selects log messages and the two bare HTTP kinds, over
    a client that fails every post. *)
Definition forwarder : SplunkNozzle FailingClient :=
  NewSplunkForwarder (Attempts [])
    [Envelope_LogMessage; Envelope_HttpStart; Envelope_HttpStop] [].

(** The same forwarder holding one record. *)
Definition loaded : SplunkNozzle FailingClient :=
  handleEvent forwarder logEnvelope.

End Sample.

(** ** The record of an envelope without payload *)

(** The metric of a kind with every payload field at the zero value of its
    Go type (zero, the empty string, no identifier, no forwarded address) and
    every enumeration at its first enumerator, number 1. *)
Definition zero_metric `{EnumNames} (kind : Envelope_EventType)
    (common : CommonMetricFields) : EventValue :=
  match kind with
  | Envelope_HttpStart | Envelope_HttpStop => EventNil
  | Envelope_HttpStartStop =>
      EventHttpStartStop
        {| SplunkHttpStartStopMetric.Common := common;
           SplunkHttpStartStopMetric.StartTimestamp := 0;
           SplunkHttpStartStopMetric.StopTimestamp := 0;
           SplunkHttpStartStopMetric.RequestId := "";
           SplunkHttpStartStopMetric.PeerType := PeerType_String 1;
           SplunkHttpStartStopMetric.Method := Method_String 1;
           SplunkHttpStartStopMetric.Uri := "";
           SplunkHttpStartStopMetric.RemoteAddress := "";
           SplunkHttpStartStopMetric.UserAgent := "";
           SplunkHttpStartStopMetric.StatusCode := 0;
           SplunkHttpStartStopMetric.ContentLength := 0;
           SplunkHttpStartStopMetric.ApplicationId := "";
           SplunkHttpStartStopMetric.InstanceIndex := 0;
           SplunkHttpStartStopMetric.Forwarded := [] |}
  | Envelope_LogMessage =>
      EventLogMessage
        {| SplunkLogMessageMetric.Common := common;
           SplunkLogMessageMetric.Message := "";
           SplunkLogMessageMetric.MessageType := LogMessage_MessageType_String 1;
           SplunkLogMessageMetric.Timestamp := 0;
           SplunkLogMessageMetric.AppId := "";
           SplunkLogMessageMetric.SourceType := "";
           SplunkLogMessageMetric.SourceInstance := "" |}
  | Envelope_ValueMetric =>
      EventValueMetric
        {| SplunkValueMetric.Common := common;
           SplunkValueMetric.Name := "";
           SplunkValueMetric.Value := S754_zero false;
           SplunkValueMetric.Unit := "" |}
  | Envelope_CounterEvent =>
      EventCounterEvent
        {| SplunkCounterEventMetric.Common := common;
           SplunkCounterEventMetric.Name := "";
           SplunkCounterEventMetric.Delta := 0;
           SplunkCounterEventMetric.Total := 0 |}
  | Envelope_Error =>
      EventError
        {| SplunkErrorMetric.Common := common;
           SplunkErrorMetric.Source := "";
           SplunkErrorMetric.Code := 0;
           SplunkErrorMetric.Message := "" |}
  | Envelope_ContainerMetric =>
      EventContainerMetric
        {| SplunkContainerMetric.Common := common;
           SplunkContainerMetric.ApplicationId := "";
           SplunkContainerMetric.InstanceIndex := 0;
           SplunkContainerMetric.CpuPercentage := S754_zero false;
           SplunkContainerMetric.MemoryBytes := 0;
           SplunkContainerMetric.DiskBytes := 0 |}
  end.

(** The record of an envelope that carries nothing but its common fields:
    time, host and source from the envelope, and the zero metric of its kind
    under the envelope's deployment, index and kind name. *)
Definition record_without_payload `{EnumNames} (event : Envelope.t) : SplunkEvent.t :=
  {| SplunkEvent.Time := nanoSecondsToSeconds (Envelope.Timestamp event);
     SplunkEvent.Host := Envelope.Ip event;
     SplunkEvent.Source := Envelope.Job event;
     SplunkEvent.Event :=
       zero_metric (Envelope.EventType event)
         {| Deployment := Envelope.Deployment event;
            Index := Envelope.Index event;
            EventType := Envelope_EventType_String (Envelope.EventType event) |} |}.

(** ** Predicates the properties are stated with *)

Definition is_RecvError (r : Received) : bool :=
  match r with RecvError _ => true | _ => false end.

Definition is_RecvTick (r : Received) : bool :=
  match r with RecvTick => true | _ => false end.

Definition is_byte (b : Z) : Prop := 0 <= b < 256.

(** Zero, or finite with a mantissa below [2^k] and an exponent of at most
    [top]. *)
Definition finite_within (k top : Z) (x : spec_float) : Prop :=
  match x with
  | S754_zero _ => True
  | S754_finite _ m e => Zpos m < 2 ^ k /\ e <= top
  | _ => False
  end.

(** The float [x] read in thousandths: [n] is a nearest integer to a
    thousand times the magnitude of [x]. *)
Definition nearest_thousandth (x : spec_float) (n : Z) : Prop :=
  match x with
  | S754_zero _ => n = 0
  | S754_finite _ m e =>
      2 * Z.abs (n * 2 ^ Z.max (- e) 0 - Zpos m * 1000 * 2 ^ Z.max e 0) <= 2 ^ Z.max (- e) 0
  | _ => False
  end.

(** A configuration with two workers and no status reporting. *)
Module SinkSample.
Import splunknozzle.

Definition config : Config :=
  {| SplunkHost := "https://splunk.example.com:8088";
     SplunkToken := "token";
     SplunkIndex := "main";
     SkipSSLSplunk := false;
     Debug := false;
     Version := "1.0";
     SplunkMetricIndex := "metrics";
     HecWorkers := 2;
     ExtraFields := "";
     FlushInterval := 5000000000;
     QueueSize := 10000;
     BatchSize := 100;
     Retries := 3;
     JobHost := "nozzle.example.com";
     SubscriptionID := "splunk-firehose";
     TraceLogging := false;
     StatusMonitorInterval := 0 |}.

(** A parser of extra fields that accepts everything and finds nothing. *)
Definition noExtraFields (s : string) : list (string * string) * error := ([], None).

End SinkSample.

(** ** A client that keeps what it is handed *)

(** Any client, with the batches posted through it so far, in order. *)
Record Recording (C : Type) := {
  inner : C;
  posted : list (list SplunkEvent.t)
}.
Arguments inner {C} _.
Arguments posted {C} _.

#[global] Instance Recording_SplunkClient `{SplunkClient C} : SplunkClient (Recording C) :=
  fun c batch =>
    let '(c', err) := PostBatch (inner c) batch in
    ({| inner := c'; posted := posted c ++ [batch] |}, err).

(** The log line [Run] writes before posting [b]. *)
Definition posting_line (b : list SplunkEvent.t) : string :=
  "Posting " +:+ Text.itoa (Z.of_nat (length b)) +:+ " events".

(** ** The other constructors of [SplunkFirehoseNozzle], and its [Run] *)

Module SplunkFirehoseNozzle.
Import splunknozzle.

(** [strings.Contains]: [substr] occurs in [s]. *)
Fixpoint Contains (s substr : string) : bool :=
  String.prefix substr s
  || match s with
     | EmptyString => false
     | String _ s' => Contains s' substr
     end.

(** [Config], continued: the fields the other constructors read, beside
    those [splunknozzle.Config] holds. Durations are counts of
    nanoseconds. *)
Record Config := {
  sink : splunknozzle.Config;
  AddAppInfo : string;
  AddTags : bool;
  WantedEvents : string;
  BoltDBPath : string;
  IgnoreMissingApps : bool;
  MissingAppCacheTTL : Z;
  AppCacheTTL : Z;
  OrgSpaceCacheTTL : Z;
  SelectedMonitoringMetrics : string
}.

(** [eventrouter.Config]. *)
Record RouterConfig := {
  SelectedEvents : string;
  AddAppName : bool;
  AddOrgName : bool;
  AddOrgGuid : bool;
  AddSpaceName : bool;
  AddSpaceGuid : bool;
  RouterAddTags : bool
}.

(** [cache.BoltdbConfig]. *)
Record BoltdbConfig := {
  Path : string;
  BoltIgnoreMissingApps : bool;
  BoltMissingAppCacheTTL : Z;
  BoltAppCacheTTL : Z;
  BoltOrgSpaceCacheTTL : Z
}.

(** The cache [AppCache] asks for. *)
Inductive Cache :=
| Boltdb (c : BoltdbConfig)
| NoCache.

(** The monitor [Metric] returns: a metrics monitor, by the functions
    registered for it, the index its writer sends to, its interval and the
    metrics selected; or the monitor that does nothing. *)
Inductive Monitor :=
| MetricsMonitor (registered : list string) (index : string) (interval : Z)
    (selected : string)
| NoMonitor.

(** What the main goroutine of [Run] does, in order: the calls it makes,
    each with what the call returned, the lines it logs, the goroutines it
    starts and its wait on the shutdown channel. *)
Inductive Action :=
| CallMetric (metric : Monitor)
| CallPCFClient (err : error)
| CallAppCache (appCache : Cache) (err : error)
| CallOpen (err : error)
| CallEventSink (eventSink : option Sink) (err : error)
| CallEventRouter (config : RouterConfig) (err : error)
| GoNozzleStart
| GoMetricStart
| AwaitShutdown
| CallMetricStop
| CallNozzleClose
| CallSinkClose (err : error)
| CallCacheClose
| LogError (msg : string)
| LogInfo (msg : string).

(** How a call of [Run] ends: it returns an error or [nil], or it is still
    waiting on the shutdown channel. *)
Inductive Outcome :=
| Returned (err : error)
| Waiting.

(** The collaborators of [Run], each by the error it returns:
    [cfclient.NewClient], [cache.NewBoltdb], [Cache.Open],
    [events.ParseExtraFields], [eventrouter.New], [Sink.Close]; with
    [strings.ToLower], the identifier [uuid.New] draws, and whether anything
    ever arrives on the shutdown channel. *)
Record Collaborators := {
  ToLower : string -> string;
  NewClient : error;
  NewBoltdb : BoltdbConfig -> error;
  Open : Cache -> error;
  ParseExtraFields : string -> list (string * string) * error;
  nozzleUUID : string;
  eventrouter_New : RouterConfig -> error;
  Close : Sink -> error;
  shutdown : bool
}.

(** [EventRouter], up to the call of [eventrouter.New]: the configuration
    it builds. *)
Definition EventRouter_config (ToLower : string -> string) (config : Config) : RouterConfig :=
  let LowerAddAppInfo := ToLower (AddAppInfo config) in
  {| SelectedEvents := WantedEvents config;
     AddAppName := Contains LowerAddAppInfo "appname";
     AddOrgName := Contains LowerAddAppInfo "orgname";
     AddOrgGuid := Contains LowerAddAppInfo "orgguid";
     AddSpaceName := Contains LowerAddAppInfo "spacename";
     AddSpaceGuid := Contains LowerAddAppInfo "spaceguid";
     RouterAddTags := AddTags config |}.

Definition EventRouter (w : Collaborators) (config : Config) : error :=
  eventrouter_New w (EventRouter_config (ToLower w) config).

Definition AppCache (NewBoltdb : BoltdbConfig -> error) (config : Config) : Cache * error :=
  if negb (String.eqb (AddAppInfo config) "") then
    let c :=
      {| Path := BoltDBPath config;
         BoltIgnoreMissingApps := IgnoreMissingApps config;
         BoltMissingAppCacheTTL := MissingAppCacheTTL config;
         BoltAppCacheTTL := AppCacheTTL config;
         BoltOrgSpaceCacheTTL := OrgSpaceCacheTTL config |} in
    (Boltdb c, NewBoltdb c)
  else (NoCache, None).

Definition Metric (config : Config) : Monitor :=
  if (0 <? StatusMonitorInterval (sink config))
     && negb (String.eqb (SelectedMonitoringMetrics config) "")
  then
    MetricsMonitor ["nozzle.usage.ram"; "nozzle.usage.cpu"]%string
      (SplunkMetricIndex (sink config))
      (StatusMonitorInterval (sink config))
      (SelectedMonitoringMetrics config)
  else NoMonitor.

(** [Run], the main goroutine. The deferred [appCache.Close] is the last
    action of every return that follows a successful [Open]. [EventSink]
    logs the parse error itself, before it returns. *)
Definition Run (w : Collaborators) (config : Config) : list Action * Outcome :=
  let metric := Metric config in
  let trace := [CallMetric metric; CallPCFClient (NewClient w)] in
  match NewClient w with
  | Some _ =>
      (trace ++ [LogError "Failed to get info from CF Server"], Returned (NewClient w))
  | None =>
      let '(appCache, err) := AppCache (NewBoltdb w) config in
      let trace := trace ++ [CallAppCache appCache err] in
      match err with
      | Some _ => (trace ++ [LogError "Failed to start App Cache"], Returned err)
      | None =>
          let err := Open w appCache in
          let trace := trace ++ [CallOpen err] in
          match err with
          | Some _ => (trace ++ [LogError "Failed to open App Cache"], Returned err)
          | None =>
              let '(eventSink, err) :=
                splunknozzle.EventSink (ParseExtraFields w) (nozzleUUID w) (sink config) in
              match err with
              | Some _ =>
                  (trace
                     ++ [LogError "Error at parsing extra fields";
                         CallEventSink eventSink err;
                         LogError "Failed to create event sink"; CallCacheClose],
                   Returned err)
              | None =>
                  let trace :=
                    trace
                      ++ [CallEventSink eventSink err;
                          LogInfo "Running splunk-firehose-nozzle with following configuration variables "] in
                  let err := EventRouter w config in
                  let trace :=
                    trace ++ [CallEventRouter (EventRouter_config (ToLower w) config) err] in
                  match err with
                  | Some _ =>
                      (trace ++ [LogError "Failed to create event router"; CallCacheClose],
                       Returned err)
                  | None =>
                      let trace := trace ++ [GoNozzleStart; GoMetricStart; AwaitShutdown] in
                      if shutdown w then
                        let err := from_option (Close w) None eventSink in
                        (trace
                           ++ [LogInfo "Splunk Nozzle is going to exit gracefully";
                               CallMetricStop; CallNozzleClose; CallSinkClose err;
                               CallCacheClose],
                         Returned err)
                      else (trace, Waiting)
                  end
              end
          end
      end
  end.

(** The first error among the steps that set the pipeline up, in the order
    [Run] takes them. *)
Definition setup_error (w : Collaborators) (config : Config) : error :=
  match NewClient w with
  | Some _ => NewClient w
  | None =>
      match snd (AppCache (NewBoltdb w) config) with
      | Some e => Some e
      | None =>
          match Open w (fst (AppCache (NewBoltdb w) config)) with
          | Some e => Some e
          | None =>
              match snd (splunknozzle.EventSink (ParseExtraFields w) (nozzleUUID w)
                           (sink config)) with
              | Some e => Some e
              | None => EventRouter w config
              end
          end
      end
  end.

(** [strings.ToLower] on a string of ASCII characters: the letters [A] to
    [Z] moved to lower case. *)
Definition lower_ascii (c : ascii) : ascii :=
  let n := nat_of_ascii c in
  if ((65 <=? n) && (n <=? 90))%nat then ascii_of_nat (n + 32) else c.

Fixpoint ToLower_ascii (s : string) : string :=
  match s with
  | EmptyString => EmptyString
  | String c s' => String (lower_ascii c) (ToLower_ascii s')
  end.

End SplunkFirehoseNozzle.

(** The text begins with a minus sign. *)
Definition starts_with_minus (s : string) : bool :=
  match s with
  | String c _ => Ascii.eqb c "-"
  | EmptyString => false
  end.

Definition uint64_range (v : Z) : Prop := 0 <= v < 2 ^ 64.

(** The value of a lowercase hexadecimal digit. *)
Definition hex_value (c : ascii) : Z :=
  let n := Z.of_nat (nat_of_ascii c) in
  if (48 <=? n) && (n <=? 57) then n - 48 else n - 87.

(** The number a list of bytes spells, least significant byte first. *)
Definition from_le (bs : list Z) : Z :=
  fold_right (fun b acc => b + 256 * acc) 0 bs.

Definition int_range (n : Z) : Prop := - 2 ^ 63 <= n < 2 ^ 63.

(** Kinds of actions of [SplunkFirehoseNozzle.Run]. [is_started]: one of
    the two [go] statements of [Run] itself, or its wait on the shutdown
    channel; the status task is started inside [EventSink] and is recorded in
    the sink that call returns. *)
Definition is_started (a : SplunkFirehoseNozzle.Action) : bool :=
  match a with
  | SplunkFirehoseNozzle.GoNozzleStart
  | SplunkFirehoseNozzle.GoMetricStart
  | SplunkFirehoseNozzle.AwaitShutdown => true
  | _ => false
  end.

Definition is_SinkClose (a : SplunkFirehoseNozzle.Action) : bool :=
  match a with SplunkFirehoseNozzle.CallSinkClose _ => true | _ => false end.

Definition is_CacheClose (a : SplunkFirehoseNozzle.Action) : bool :=
  match a with SplunkFirehoseNozzle.CallCacheClose => true | _ => false end.

Definition is_opened (a : SplunkFirehoseNozzle.Action) : bool :=
  match a with SplunkFirehoseNozzle.CallOpen None => true | _ => false end.

Definition is_Returned (o : SplunkFirehoseNozzle.Outcome) : bool :=
  match o with SplunkFirehoseNozzle.Returned _ => true | _ => false end.





(** A configuration that asks for application names and organisation names
    and reports its status every thirty seconds. *)
Module NozzleSample.
Import splunknozzle SplunkFirehoseNozzle.

Definition sinkConfig : splunknozzle.Config :=
  {| SplunkHost := "https://splunk.example.com:8088";
     SplunkToken := "token";
     SplunkIndex := "main";
     SkipSSLSplunk := false;
     Debug := false;
     Version := "1.0";
     SplunkMetricIndex := "metrics";
     HecWorkers := -1;
     ExtraFields := "";
     FlushInterval := 5000000000;
     QueueSize := 10000;
     BatchSize := 100;
     Retries := 3;
     JobHost := "nozzle.example.com";
     SubscriptionID := "splunk-firehose";
     TraceLogging := false;
     StatusMonitorInterval := 30000000000 |}.

Definition config : SplunkFirehoseNozzle.Config :=
  {| sink := sinkConfig;
     AddAppInfo := "AppName,OrgName";
     AddTags := false;
     WantedEvents := "ValueMetric,CounterEvent,ContainerMetric";
     BoltDBPath := "cache.db";
     IgnoreMissingApps := true;
     MissingAppCacheTTL := 0;
     AppCacheTTL := 0;
     OrgSpaceCacheTTL := 259200000000000;
     SelectedMonitoringMetrics := "nozzle.usage.ram" |}.

Definition noExtraFields (s : string) : list (string * string) * error := ([], None).

(** Collaborators that never fail, with a shutdown that arrives. *)
Definition collaborators : Collaborators :=
  {| ToLower := ToLower_ascii;
     NewClient := None;
     NewBoltdb := fun _ => None;
     Open := fun _ => None;
     ParseExtraFields := noExtraFields;
     nozzleUUID := "uuid";
     eventrouter_New := fun _ => None;
     Close := fun _ => None;
     shutdown := true |}.

(** The same, with a router that cannot be built. *)
Definition routerFails : Collaborators :=
  {| ToLower := ToLower_ascii;
     NewClient := None;
     NewBoltdb := fun _ => None;
     Open := fun _ => None;
     ParseExtraFields := noExtraFields;
     nozzleUUID := "uuid";
     eventrouter_New := fun _ => Some "invalid event type"%string;
     Close := fun _ => None;
     shutdown := true |}.

End NozzleSample.

(** The envelope is of a selected kind for which an event is built. *)
Definition builds_record (included : gmap Envelope_EventType bool) (event : Envelope.t) : bool :=
  map_index included (Envelope.GetEventType event)
  && match Envelope.GetEventType event with
     | Envelope_HttpStart | Envelope_HttpStop => false
     | _ => true
     end.

(** The two hexadecimal digits of a byte. *)
Definition hex_byte (b : Z) : string :=
  string_of_list_ascii (Bytes.hex_Encode [b]).

(** * Properties *)

(** ** The forwarder: [handleEvent] and [Run] *)

Section ForwarderFacts.
Context `{EnumNames} `{SplunkClient C}.
Implicit Types (s : SplunkNozzle C) (event : Envelope.t).

Lemma with_batch_id s : with_batch (batch s) s = s.
Proof. by destruct s. Qed.

(** Every builder stamps the metric with the name of the envelope's
    kind. *)
Lemma built_eventType event :
  let name := Some (Envelope_EventType_String (Envelope.GetEventType event)) in
  SplunkEvent.eventType (BuildHttpStartStopMetric event) = name
  /\ SplunkEvent.eventType (BuildLogMessageMetric event) = name
  /\ SplunkEvent.eventType (BuildValueMetric event) = name
  /\ SplunkEvent.eventType (BuildCounterEventMetric event) = name
  /\ SplunkEvent.eventType (BuildErrorMetric event) = name
  /\ SplunkEvent.eventType (BuildContainerMetric event) = name.
Proof. repeat split. Qed.

(** [handleEvent] either leaves the forwarder as it is or appends one
    record, stamped with the kind's name, to the batch. *)
Lemma handleEvent_cases s event :
  handleEvent s event = s
  \/ exists r, handleEvent s event = with_batch (batch s ++ [r]) s
               /\ SplunkEvent.eventType r
                  = Some (Envelope_EventType_String (Envelope.GetEventType event)).
Proof.
  unfold handleEvent.
  destruct (map_index _ _); simpl; [|by left].
  destruct (built_eventType event) as (?&?&?&?&?&?).
  destruct (Envelope.GetEventType event) eqn:E; simpl in *; eauto.
Qed.

Lemma handleEvent_client s event : splunkClient (handleEvent s event) = splunkClient s.
Proof. destruct (handleEvent_cases s event) as [->|(r&->&_)]; done. Qed.

Lemma handleEvent_logger s event : logger (handleEvent s event) = logger s.
Proof. destruct (handleEvent_cases s event) as [->|(r&->&_)]; done. Qed.

Lemma handleEvent_included s event :
  includedEventTypes (handleEvent s event) = includedEventTypes s.
Proof. destruct (handleEvent_cases s event) as [->|(r&->&_)]; done. Qed.

Lemma handleEvent_batch_prefix s event : batch s `prefix_of` batch (handleEvent s event).
Proof.
  destruct (handleEvent_cases s event) as [->|(r&->&_)]; [done|].
  by exists [r].
Qed.

(** [Run] over two stretches of communications, the first without an
    error. *)
Lemma Run_app s pre post :
  forallb (fun r => negb (is_RecvError r)) pre = true ->
  Run s (pre ++ post) = Run (fst (Run s pre)) post.
Proof.
  revert s; induction pre as [|[err|event|] pre IH]; intros s Hpre; simpl in *;
    try done; by apply IH.
Qed.

(** Between two ticks nothing reaches the client and the batch only
    grows. *)
Lemma Run_between_ticks s received :
  forallb (fun r => negb (is_RecvTick r)) received = true ->
  splunkClient (fst (Run s received)) = splunkClient s
  /\ logger (fst (Run s received)) = logger s
  /\ batch s `prefix_of` batch (fst (Run s received)).
Proof.
  revert s; induction received as [|[err|event|] received IH]; intros s Hrec;
    simpl in *; try done.
  destruct (IH (handleEvent s event) Hrec) as (Hc & Hl & Hb).
  rewrite Hc, Hl, handleEvent_client, handleEvent_logger.
  repeat split. etrans; [apply handleEvent_batch_prefix|done].
Qed.

Lemma onTick_nonempty s :
  batch s <> [] ->
  onTick s
  = {| splunkClient := fst (PostBatch (splunkClient s) (batch s));
       includedEventTypes := includedEventTypes s;
       batch := [];
       logger := logger s
                 ++ ["Posting " +:+ Text.itoa (Z.of_nat (length (batch s))) +:+ " events"] |}.
Proof.
  intros Hne. unfold onTick.
  destruct (batch s) as [|r b] eqn:Hb; [done|].
  simpl length. replace (0 <? Z.of_nat (S (length b))) with true by (symmetry; apply Z.ltb_lt; lia).
  by destruct (PostBatch _ _).
Qed.

Lemma onTick_empty s : batch s = [] -> onTick s = s.
Proof. intros Hb. unfold onTick. by rewrite Hb. Qed.

Lemma onTick_batch s : batch (onTick s) = [].
Proof.
  destruct (decide (batch s = [])) as [Hb|Hb].
  - by rewrite onTick_empty.
  - by rewrite onTick_nonempty.
Qed.

End ForwarderFacts.

(** Keys selected at construction read [true]; any other key reads what the
    initial map holds. *)
Lemma selected_index (m : gmap Envelope_EventType bool) (sel : list Envelope_EventType)
    (t : Envelope_EventType) :
  map_index (foldl (fun m k => <[k := true]> m) m sel) t
  = bool_decide (t ∈ sel) || map_index m t.
Proof.
  revert m; induction sel as [|k sel IH]; intros m; simpl; [done|].
  rewrite IH. unfold map_index.
  destruct (decide (k = t)) as [->|Hne].
  - rewrite lookup_insert_eq. simpl. rewrite orb_true_r.
    by rewrite bool_decide_eq_true_2 by apply list_elem_of_here.
  - rewrite lookup_insert_ne by done.
    f_equal. apply bool_decide_ext. rewrite elem_of_cons.
    split; [by right | by intros [->|?]].
Qed.

(** ** C1: when the batch is flushed *)

(** C1, as stated, fails. With [BatchSize = 2], three selected envelopes
    arriving before the first tick leave the loop holding a batch of three
    records. *)
Lemma batch_outgrows_BatchSize :
  ~ held_below_BatchSize 2
      (fst (Run Sample.forwarder
              [RecvEvent Sample.logEnvelope; RecvEvent Sample.logEnvelope;
               RecvEvent Sample.logEnvelope])).
Proof. unfold held_below_BatchSize. vm_compute. lia. Qed.

(** C1, amended. The tick is the only trigger. Over any stretch of
    communications without a tick the client is not called and the batch
    keeps every record it held, whatever its length; a tick leaves the batch
    empty, and when the batch was not empty the client has been handed it
    whole, once. *)
Theorem flush_on_tick_only `{EnumNames} `{SplunkClient C}
    (s : SplunkNozzle C) (received : list Received) :
  forallb (fun r => negb (is_RecvTick r)) received = true ->
  let s' := fst (Run s received) in
  splunkClient s' = splunkClient s
  /\ batch s `prefix_of` batch s'
  /\ batch (fst (Run s' [RecvTick])) = []
  /\ (batch s' <> [] ->
      splunkClient (fst (Run s' [RecvTick])) = fst (PostBatch (splunkClient s') (batch s'))).
Proof.
  intros Hrec s'. destruct (Run_between_ticks s received Hrec) as (Hc & _ & Hb).
  repeat split; try done.
  - simpl. apply onTick_batch.
  - intros Hne. simpl. by rewrite onTick_nonempty.
Qed.

Lemma flush_on_tick_only_witness :
  let received := [RecvEvent Sample.logEnvelope; RecvEvent Sample.logEnvelope;
                   RecvEvent Sample.logEnvelope] in
  let s' := fst (Run Sample.forwarder received) in
  splunkClient s' = splunkClient Sample.forwarder
  /\ batch Sample.forwarder `prefix_of` batch s'
  /\ batch (fst (Run s' [RecvTick])) = []
  /\ (batch s' <> [] ->
      splunkClient (fst (Run s' [RecvTick])) = fst (PostBatch (splunkClient s') (batch s'))).
Proof.
  intros received.
  apply (flush_on_tick_only Sample.forwarder received).
  reflexivity.
Defined.

(** ** C2: what happens to a batch the client fails to post *)

(** C2, as stated, fails. With a client that fails every post, the tick
    hands the batch to the client once, not three times. *)
Lemma failed_batch_not_retried :
  ~ attempted_Retries_times 3 (batch Sample.loaded)
      (splunkClient Sample.loaded)
      (splunkClient (fst (Run Sample.loaded [RecvTick; RecvTick; RecvTick]))).
Proof. unfold attempted_Retries_times. vm_compute. discriminate. Qed.

(** C2, amended. A tick on a non-empty batch hands it to the client exactly
    once; whatever the client answers, the batch is emptied and one line
    announcing the post is logged; later ticks do nothing more, so the batch
    is never attempted again. *)
Theorem failed_batch_dropped_after_one_post `{EnumNames} `{SplunkClient C}
    (s : SplunkNozzle C) :
  batch s <> [] ->
  let s' := fst (Run s [RecvTick]) in
  splunkClient s' = fst (PostBatch (splunkClient s) (batch s))
  /\ batch s' = []
  /\ logger s'
     = logger s ++ ["Posting " +:+ Text.itoa (Z.of_nat (length (batch s))) +:+ " events"]
  /\ forall ticks, fst (Run s' (repeat RecvTick ticks)) = s'.
Proof.
  intros Hne s'. subst s'. simpl. rewrite onTick_nonempty by done. simpl.
  repeat split.
  induction ticks as [|n IH]; [done|]. simpl. by rewrite onTick_empty.
Qed.

Lemma failed_batch_dropped_after_one_post_witness :
  let s := Sample.loaded in
  let s' := fst (Run s [RecvTick]) in
  attempts (splunkClient s') = attempts (splunkClient s) ++ [batch s]
  /\ batch s' = []
  /\ logger s' = logger s ++ ["Posting 1 events"%string]
  /\ forall ticks, fst (Run s' (repeat RecvTick ticks)) = s'.
Proof.
  intros s s'.
  destruct (failed_batch_dropped_after_one_post s) as (Hc & Hb & Hl & Ht).
  - vm_compute. discriminate.
  - split; [unfold s'; rewrite Hc; reflexivity | split; [exact Hb | split; [exact Hl | exact Ht]]].
Defined.

(** ** C5: the record names the envelope's kind *)

(** C5. Whenever handling an envelope adds a record to the batch, the
    record's [eventType] is the name of the envelope's kind. *)
Theorem eventType_is_kind_name `{EnumNames} {C} (s : SplunkNozzle C)
    (event : Envelope.t) (r : SplunkEvent.t) :
  batch (handleEvent s event) = batch s ++ [r] ->
  SplunkEvent.eventType r
  = Some (Envelope_EventType_String (Envelope.GetEventType event)).
Proof.
  intros Hr. destruct (handleEvent_cases s event) as [Hs|(r'&Hs&Hty)];
    rewrite Hs in Hr; simpl in Hr.
  - apply (f_equal length) in Hr. rewrite length_app in Hr. simpl in Hr. lia.
  - apply app_inv_head in Hr. by injection Hr as <-.
Qed.

Lemma eventType_is_kind_name_witness :
  batch (handleEvent Sample.forwarder Sample.logEnvelope)
  = batch Sample.forwarder ++ [BuildLogMessageMetric Sample.logEnvelope]
  /\ SplunkEvent.eventType (BuildLogMessageMetric Sample.logEnvelope)
     = Some "LogMessage"%string.
Proof.
  split; [reflexivity|].
  apply (eventType_is_kind_name Sample.forwarder Sample.logEnvelope).
  reflexivity.
Defined.

(** ** C6: envelopes of kinds that are not selected *)

(** C6. An envelope whose kind is not selected leaves the forwarder exactly
    as it was (batch, client and log alike), and the loop goes on as if the
    envelope had not arrived. The forwarder has no other collaborator to
    call. *)
Theorem unselected_kind_is_dropped `{EnumNames} `{SplunkClient C}
    (s : SplunkNozzle C) (event : Envelope.t) (received : list Received) :
  map_index (includedEventTypes s) (Envelope.GetEventType event) = false ->
  handleEvent s event = s
  /\ Run s (RecvEvent event :: received) = Run s received.
Proof.
  intros Hsel.
  assert (handleEvent s event = s) as Hs by (unfold handleEvent; by rewrite Hsel).
  split; [done|]. simpl. by rewrite Hs.
Qed.

Lemma unselected_kind_is_dropped_witness :
  handleEvent Sample.loaded (Sample.envelope Envelope_ValueMetric) = Sample.loaded
  /\ Run Sample.loaded [RecvEvent (Sample.envelope Envelope_ValueMetric); RecvTick]
     = Run Sample.loaded [RecvTick].
Proof.
  apply (unselected_kind_is_dropped Sample.loaded (Sample.envelope Envelope_ValueMetric)).
  reflexivity.
Defined.

(** ** C7: an error from the source ends the loop *)

(** C7. When an error is received, [Run] returns that error at once: the
    forwarder is as the communications before the error left it, and nothing
    that arrives after the error is looked at. *)
Theorem source_error_ends_Run `{EnumNames} `{SplunkClient C}
    (s : SplunkNozzle C) (before after : list Received) (err : error) :
  forallb (fun r => negb (is_RecvError r)) before = true ->
  Run s (before ++ RecvError err :: after) = (fst (Run s before), Some err).
Proof. intros Hpre. by rewrite Run_app. Qed.

Lemma source_error_ends_Run_witness :
  Run Sample.forwarder
    ([RecvEvent Sample.logEnvelope; RecvTick]
       ++ RecvError (Some "connection lost"%string)
       :: [RecvEvent Sample.logEnvelope; RecvTick])
  = (fst (Run Sample.forwarder [RecvEvent Sample.logEnvelope; RecvTick]),
     Some (Some "connection lost"%string)).
Proof.
  apply (source_error_ends_Run Sample.forwarder).
  reflexivity.
Defined.

(** ** C8: envelopes without the payload of their kind *)

(** C8, as stated, fails. A selected log message envelope that carries no
    log message is not skipped: a record is added to the batch, and nothing
    is logged. *)
Lemma envelope_without_payload_not_skipped :
  Envelope.lacks_payload (Sample.envelope Envelope_LogMessage) = true
  /\ batch (handleEvent Sample.forwarder (Sample.envelope Envelope_LogMessage))
     <> batch Sample.forwarder
  /\ logger (handleEvent Sample.forwarder (Sample.envelope Envelope_LogMessage))
     = logger Sample.forwarder.
Proof. split; [reflexivity|]. split; [vm_compute; discriminate | reflexivity]. Qed.

(** C8, amended. A selected envelope that lacks the payload of its kind is
    handled like any other: one record is appended to the batch, stamped
    with the kind's name and built from the defaults of the missing fields
    (zero, the empty string, the first enumerator) under the envelope's own
    time, host, source, deployment and index; nothing is logged, the client
    is not called, and the loop goes on with what arrives next. *)
Theorem envelope_without_payload_is_forwarded `{EnumNames} `{SplunkClient C}
    (s : SplunkNozzle C) (event : Envelope.t) (received : list Received) :
  map_index (includedEventTypes s) (Envelope.GetEventType event) = true ->
  Envelope.lacks_payload event = true ->
  let r := record_without_payload event in
  handleEvent s event = with_batch (batch s ++ [r]) s
  /\ SplunkEvent.eventType r
     = Some (Envelope_EventType_String (Envelope.GetEventType event))
  /\ logger (handleEvent s event) = logger s
  /\ splunkClient (handleEvent s event) = splunkClient s
  /\ Run s (RecvEvent event :: received) = Run (with_batch (batch s ++ [r]) s) received.
Proof.
  intros Hsel Hlack r.
  assert (handleEvent s event = with_batch (batch s ++ [r]) s
          /\ SplunkEvent.eventType r
             = Some (Envelope_EventType_String (Envelope.GetEventType event)))
    as [Hs Hty].
  { subst r. unfold handleEvent. rewrite Hsel. cbn [negb].
    unfold Envelope.lacks_payload in Hlack.
    destruct event as [kind ts dep job idx ip hss lm vm ce er cm].
    cbn [Envelope.GetEventType Envelope.EventType Envelope.HttpStartStop
         Envelope.LogMessage Envelope.ValueMetric Envelope.CounterEvent Envelope.Error
         Envelope.ContainerMetric] in *.
    destruct kind; try discriminate Hlack;
      apply bool_decide_eq_true in Hlack; subst; split; reflexivity. }
  split; [exact Hs|]. split; [exact Hty|].
  rewrite handleEvent_logger, handleEvent_client. cbn [Run]. by rewrite Hs.
Qed.

Lemma envelope_without_payload_is_forwarded_witness :
  let event := Sample.envelope Envelope_LogMessage in
  let r := record_without_payload event in
  SplunkEvent.Event r
  = EventLogMessage
      {| SplunkLogMessageMetric.Common :=
           {| Deployment := "cf"; Index := "0"; EventType := "LogMessage" |};
         SplunkLogMessageMetric.Message := "";
         SplunkLogMessageMetric.MessageType := "OUT";
         SplunkLogMessageMetric.Timestamp := 0;
         SplunkLogMessageMetric.AppId := "";
         SplunkLogMessageMetric.SourceType := "";
         SplunkLogMessageMetric.SourceInstance := "" |}
  /\ handleEvent Sample.forwarder event
     = with_batch (batch Sample.forwarder ++ [r]) Sample.forwarder
  /\ SplunkEvent.eventType r = Some "LogMessage"%string
  /\ logger (handleEvent Sample.forwarder event) = logger Sample.forwarder
  /\ splunkClient (handleEvent Sample.forwarder event) = splunkClient Sample.forwarder
  /\ Run Sample.forwarder [RecvEvent event]
     = Run (with_batch (batch Sample.forwarder ++ [r]) Sample.forwarder) [].
Proof.
  intros event r. split; [reflexivity|].
  apply (envelope_without_payload_is_forwarded Sample.forwarder event []); reflexivity.
Defined.

(** ** C10: the bare HTTP kinds *)

(** C10. The constructor takes [HttpStart] and [HttpStop] into the selected
    kinds like any other kind, and yet an envelope of either kind, selected
    or not, leaves the forwarder as it was: no record is built for it. *)
Theorem HttpStart_HttpStop_build_nothing `{EnumNames} `{SplunkClient C}
    (client : C) (selectedEventTypes : list Envelope_EventType) (log : list string)
    (s : SplunkNozzle C) (event : Envelope.t) :
  Envelope.GetEventType event = Envelope_HttpStart
  \/ Envelope.GetEventType event = Envelope_HttpStop ->
  (Envelope.GetEventType event ∈ selectedEventTypes ->
   map_index (includedEventTypes (NewSplunkForwarder client selectedEventTypes log))
     (Envelope.GetEventType event) = true)
  /\ handleEvent s event = s
  /\ batch (handleEvent s event) = batch s.
Proof.
  intros Hkind. split; [|split].
  - intros Hin. unfold NewSplunkForwarder. simpl. rewrite selected_index.
    by rewrite bool_decide_eq_true_2.
  - unfold handleEvent. destruct (map_index _ _); simpl; [|done].
    by destruct Hkind as [-> | ->].
  - unfold handleEvent. destruct (map_index _ _); simpl; [|done].
    by destruct Hkind as [-> | ->].
Qed.

Lemma HttpStart_HttpStop_build_nothing_witness :
  map_index (includedEventTypes Sample.forwarder) Envelope_HttpStart = true
  /\ handleEvent Sample.loaded (Sample.envelope Envelope_HttpStart) = Sample.loaded
  /\ batch (handleEvent Sample.loaded (Sample.envelope Envelope_HttpStart))
     = batch Sample.loaded.
Proof.
  destruct (HttpStart_HttpStop_build_nothing (Attempts [])
              [Envelope_LogMessage; Envelope_HttpStart; Envelope_HttpStop] []
              Sample.loaded (Sample.envelope Envelope_HttpStart)) as (Hsel & Hs & Hb).
  - left; reflexivity.
  - split; [apply Hsel; vm_compute; apply list_elem_of_further, list_elem_of_here | by split].
Defined.

(** ** C9: the delivery workers of the sink *)

Section SinkFacts.
Import splunknozzle.

Lemma for_lt_append_length {A} (n : Z) (w : Z -> A) :
  length (for_lt n (fun i acc => acc ++ [w i]) []) = Z.to_nat n.
Proof.
  unfold for_lt.
  assert (forall l acc,
             length (fold_left (fun acc i => acc ++ [w (Z.of_nat i)]) l acc)
             = (length acc + length l)%nat) as Hfold.
  { induction l as [|i l IH]; intros acc; simpl; [lia|].
    rewrite IH, length_app. simpl. lia. }
  rewrite Hfold, length_seq. simpl. lia.
Qed.

Lemma wrap_int_id (z : Z) : - 2 ^ 63 <= z < 2 ^ 63 -> wrap_int z = z.
Proof. intros Hz. unfold wrap_int. rewrite Z.mod_small; lia. Qed.

End SinkFacts.

(** C9. When [EventSink] returns a sink for a configured number of
    workers, the delivery workers of that sink are exactly [HecWorkers]: the
    sink holds one writer more than it has delivery workers, the slot of the
    status reporter. The status task is no delivery worker: it is started on
    its own, when the reporting interval is positive and only then, and the
    number of delivery workers is the same either way. *)
Theorem delivery_pool_is_HecWorkers
    (ParseExtraFields : string -> list (string * string) * error) (nozzleUUID : string)
    (config : splunknozzle.Config) (sink : splunknozzle.Sink) :
  0 <= splunknozzle.HecWorkers config < 2 ^ 63 - 1 ->
  fst (splunknozzle.EventSink ParseExtraFields nozzleUUID config) = Some sink ->
  Z.of_nat (eventsink.delivery_workers sink) = splunknozzle.HecWorkers config
  /\ length (splunknozzle.writers sink) = S (eventsink.delivery_workers sink)
  /\ splunknozzle.started sink
     = if 0 <? splunknozzle.StatusMonitorInterval config
       then [splunknozzle.LogStatus] else [].
Proof.
  intros Hn Hsink. unfold splunknozzle.EventSink in Hsink.
  destruct (ParseExtraFields _) as [fields [e|]]; simpl in Hsink; [discriminate|].
  injection Hsink as <-. unfold eventsink.delivery_workers.
  cbn [splunknozzle.writers splunknozzle.started].
  rewrite for_lt_append_length, wrap_int_id by lia.
  split; [lia|]. split; [lia|done].
Qed.

Lemma delivery_pool_is_HecWorkers_witness :
  exists sink,
    fst (splunknozzle.EventSink SinkSample.noExtraFields "uuid" SinkSample.config) = Some sink
    /\ Z.of_nat (eventsink.delivery_workers sink) = 2
    /\ length (splunknozzle.writers sink) = 3%nat
    /\ splunknozzle.started sink = [].
Proof.
  eexists. split; [reflexivity|].
  apply (delivery_pool_is_HecWorkers SinkSample.noExtraFields "uuid" SinkSample.config).
  - simpl. lia.
  - reflexivity.
Defined.

(** ** C4: the text of an identifier *)

Section UuidFacts.
Import Bytes.

Lemma PutUint64_le_bytes (v : Z) : Forall is_byte (PutUint64_le v).
Proof.
  unfold PutUint64_le. apply Forall_map, Forall_forall. intros i _.
  unfold is_byte. change 255 with (Z.ones 8). rewrite Z.land_ones by lia.
  apply Z.mod_pos_bound. lia.
Qed.

Lemma PutUint64_le_length (v : Z) : length (PutUint64_le v) = 8%nat.
Proof. reflexivity. Qed.

Lemma hexdigit_lower (n : Z) : 0 <= n < 16 -> is_lower_hex (hexdigit n) = true.
Proof.
  intros Hn.
  assert (exists k, (k < 16)%nat /\ n = Z.of_nat k) as (k & Hk & ->).
  { exists (Z.to_nat n). lia. }
  do 16 (destruct k as [|k]; [reflexivity|]). lia.
Qed.

Lemma hex_Encode_lower (src : list Z) :
  Forall is_byte src -> forallb is_lower_hex (hex_Encode src) = true.
Proof.
  induction 1 as [|b src Hb _ IH]; [done|].
  unfold is_byte in Hb. simpl.
  rewrite IH, !hexdigit_lower; [done| |].
  - change 15 with (Z.ones 4). rewrite Z.land_ones by lia.
    apply Z.mod_pos_bound. lia.
  - rewrite Z.shiftr_div_pow2 by lia. change (2 ^ 4) with 16.
    split; [apply Z.div_pos; lia | apply Z.div_lt_upper_bound; lia].
Qed.

Lemma hex_Encode_length (src : list Z) :
  length (hex_Encode src) = (2 * length src)%nat.
Proof. induction src as [|b src IH]; simpl; lia. Qed.

Lemma slice_bytes (lo hi : nat) (b : list Z) :
  Forall is_byte b -> Forall is_byte (slice lo hi b).
Proof. intros Hb. unfold slice. by apply Forall_take, Forall_drop. Qed.

(** Takes a list of known length apart into its elements. *)
Ltac explode l Hlen :=
  repeat (destruct l as [|? l]; simpl in Hlen; try discriminate Hlen);
  clear Hlen.

(** The five groups written at their offsets, with the four dashes between
    them, make the canonical layout. *)
Lemma groups_make_canonical_text (g1 g2 g3 g4 g5 : list ascii) :
  length g1 = 8%nat -> length g2 = 4%nat -> length g3 = 4%nat ->
  length g4 = 4%nat -> length g5 = 12%nat ->
  forallb is_lower_hex g1 = true -> forallb is_lower_hex g2 = true ->
  forallb is_lower_hex g3 = true -> forallb is_lower_hex g4 = true ->
  forallb is_lower_hex g5 = true ->
  let text :=
    string_of_list_ascii
      (write_at 24 g5 (write_at 23 [dashByte] (write_at 19 g4 (write_at 18 [dashByte]
         (write_at 14 g3 (write_at 13 [dashByte] (write_at 9 g2 (write_at 8 [dashByte]
            (write_at 0 g1 (repeat zero 36)))))))))) in
  String.length text = 36%nat /\ is_canonical_uuid_text text = true.
Proof.
  intros L1 L2 L3 L4 L5 H1 H2 H3 H4 H5.
  explode g1 L1. explode g2 L2. explode g3 L3. explode g4 L4. explode g5 L5.
  cbn -[is_lower_hex] in H1, H2, H3, H4, H5.
  repeat match goal with
         | Hc : _ && _ = true |- _ => apply andb_prop in Hc; destruct Hc as [? ?]
         end.
  split; [reflexivity|].
  unfold is_canonical_uuid_text. rewrite list_ascii_of_string_of_list_ascii.
  cbn -[is_lower_hex].
  repeat match goal with
         | Hc : is_lower_hex _ = true |- _ => rewrite Hc; clear Hc
         end.
  reflexivity.
Qed.

End UuidFacts.

(** C4. [uuidToHex] is a function defined on every identifier: an absent
    identifier gives the empty string, and every pair of 64-bit halves gives
    a string of 36 characters, lowercase hexadecimal digits in groups of 8,
    4, 4, 4 and 12 with a dash between the groups. *)
Theorem uuidToHex_canonical (low high : Z) :
  uuidToHex None = ""%string
  /\ String.length (uuidToHex (Some {| Low := low; High := high |})) = 36%nat
  /\ is_canonical_uuid_text (uuidToHex (Some {| Low := low; High := high |})) = true.
Proof.
  split; [reflexivity|].
  assert (Forall is_byte (Bytes.PutUint64_le low ++ Bytes.PutUint64_le high)) as Hb.
  { apply Forall_app; split; apply PutUint64_le_bytes. }
  unfold uuidToHex. cbv beta zeta. simpl Low. simpl High.
  apply groups_make_canonical_text;
    try (rewrite hex_Encode_length; reflexivity);
    apply hex_Encode_lower, slice_bytes, Hb.
Qed.

(** ** C3: the text of a timestamp *)

Section Float64Facts.
Import Float64.

Lemma digits2_pos_size (p : positive) : digits2_pos p = Pos.size p.
Proof. induction p; simpl; congruence. Qed.

Lemma size_log2 (p : positive) : Zpos (Pos.size p) = Z.log2 (Zpos p) + 1.
Proof. destruct p; cbn [Pos.size Z.log2]; rewrite ?Pos2Z.inj_succ; lia. Qed.

(** A positive integer below [2^k] has at most [k] binary digits. *)
Lemma Zdigits2_le (m k : Z) : 0 <= k -> 0 <= m < 2 ^ k -> 0 <= Zdigits2 m <= k.
Proof.
  intros Hk [Hm0 Hmk]. destruct m as [|p|p]; simpl; [lia| |lia].
  rewrite digits2_pos_size, size_log2.
  assert (Z.log2 (Zpos p) < k) by (apply Z.log2_lt_pow2; lia).
  pose proof (Z.log2_nonneg (Zpos p)). lia.
Qed.

Lemma Zpos_digits2_bounds (p : positive) :
  2 ^ (Zpos (digits2_pos p) - 1) <= Zpos p < 2 ^ Zpos (digits2_pos p).
Proof.
  rewrite digits2_pos_size, size_log2.
  replace (Z.log2 (Zpos p) + 1 - 1) with (Z.log2 (Zpos p)) by lia.
  pose proof (Z.log2_spec (Zpos p)). unfold Z.succ in *. lia.
Qed.

Lemma iter_pos_invariant {A} (f : A -> A) (P : A -> Prop) :
  (forall x, P x -> P (f x)) -> forall n x, P x -> P (SpecFloat.iter_pos f n x).
Proof. intros Hf. induction n; intros x Hx; simpl; auto. Qed.

Lemma shr_1_bounds (mrs : shr_record) (bound : Z) :
  0 <= shr_m mrs <= bound -> 0 <= shr_m (shr_1 mrs) <= bound.
Proof. destruct mrs as [[|[p|p|]|p] r s]; simpl; lia. Qed.

(** Shifting right keeps a non-negative mantissa non-negative and no
    larger, and raises the exponent by the shift. *)
Lemma shr_bounds (mrs : shr_record) (e n : Z) :
  0 <= shr_m mrs ->
  0 <= shr_m (fst (shr mrs e n)) <= shr_m mrs
  /\ snd (shr mrs e n) = e + Z.max n 0.
Proof.
  intros Hm. destruct n as [|p|p]; simpl; try lia.
  split; [|lia].
  apply (iter_pos_invariant shr_1 (fun r => 0 <= shr_m r <= shr_m mrs)); [|lia].
  intros x. apply shr_1_bounds.
Qed.

Lemma round_nearest_even_bounds (m : Z) (l : location) :
  m <= round_nearest_even m l <= m + 1.
Proof. destruct l as [|[]]; simpl; try lia. destruct (Z.even m); lia. Qed.

(** Rounding a positive mantissa below [2^k] gives zero or a finite number:
    with the exponent this far below the largest one, it cannot
    overflow. *)
Lemma binary_round_aux_finite (sx : bool) (mx ex k : Z) :
  0 <= k -> 0 < mx < 2 ^ k -> Z.max ex (-1074) + 2 * k <= 971 ->
  finite_within (k + 1) (Z.max ex (-1074) + 2 * k)
    (binary_round_aux prec emax sx mx ex loc_Exact).
Proof.
  intros Hk Hmx Hex. unfold binary_round_aux, shr_fexp.
  pose proof (Zdigits2_le mx k Hk ltac:(lia)) as Hd1.
  set (n1 := fexp prec emax (Zdigits2 mx + ex) - ex).
  pose proof (shr_bounds (shr_record_of_loc mx loc_Exact) ex n1) as H1.
  destruct (shr (shr_record_of_loc mx loc_Exact) ex n1) as [mrs' e'].
  simpl in H1. destruct H1 as [Hm1 He1]; [lia|].
  pose proof (round_nearest_even_bounds (shr_m mrs') (loc_of_shr_record mrs')) as Hr.
  set (m1 := round_nearest_even (shr_m mrs') (loc_of_shr_record mrs')) in *.
  assert (2 ^ k * 2 = 2 ^ (k + 1)) as Hpow by (rewrite Z.pow_add_r by lia; reflexivity).
  pose proof (Zdigits2_le m1 (k + 1) ltac:(lia) ltac:(lia)) as Hd2.
  set (n2 := fexp prec emax (Zdigits2 m1 + e') - e').
  pose proof (shr_bounds (shr_record_of_loc m1 loc_Exact) e' n2) as H2.
  destruct (shr (shr_record_of_loc m1 loc_Exact) e' n2) as [mrs'' e''].
  simpl in H2. destruct H2 as [Hm2 He2]; [lia|].
  assert (e'' <= Z.max ex (-1074) + 2 * k) as Hbound.
  { subst n1 n2. unfold fexp, emin, prec, emax in *. lia. }
  destruct (shr_m mrs'') as [|m|m] eqn:Hm; [done| |lia].
  replace (e'' <=? emax - prec) with true
    by (symmetry; apply Z.leb_le; unfold emax, prec; lia).
  simpl. split; lia.
Qed.

Lemma iter_xO (p q : positive) : Zpos (Pos.iter xO p q) = Zpos p * 2 ^ Zpos q.
Proof.
  induction q as [|q IH] using Pos.peano_ind.
  - simpl. lia.
  - rewrite Pos.iter_succ, Pos2Z.inj_xO, IH, Pos2Z.inj_succ, Z.pow_succ_r by lia. lia.
Qed.

Lemma finite_within_mono (k k' top top' : Z) (x : spec_float) :
  k <= k' -> top <= top' -> finite_within k top x -> finite_within k' top' x.
Proof.
  intros Hk Htop. destruct x as [| | |s m e]; simpl; try done.
  intros [Hm He]. split; [|lia].
  assert (2 ^ k <= 2 ^ k') by (apply Z.pow_le_mono_r; lia). lia.
Qed.

(** Aligning a 64-bit magnitude on the binary64 grid: the mantissa stays
    below [2^64] and the exponent is not positive. *)
Lemma shl_align_bounds (p : positive) :
  Zpos p <= 2 ^ 63 ->
  let mez := shl_align p 0 (fexp prec emax (Zpos (digits2_pos p) + 0)) in
  0 < Zpos (fst mez) < 2 ^ 64 /\ snd mez <= 0.
Proof.
  intros Hp. pose proof (Zpos_digits2_bounds p) as Hd.
  set (d := Zpos (digits2_pos p)) in *.
  assert (1 <= d) by (subst d; lia).
  unfold shl_align, fexp, emin, prec, emax.
  destruct (Z.max (d + 0 - 53) (3 - 1024 - 53) - 0) as [|q|q] eqn:Hq; simpl; try lia.
  rewrite iter_xO. assert (Zpos q = 53 - d) as -> by lia.
  split; [|lia]. split; [lia|].
  assert (2 ^ d * 2 ^ (53 - d) = 2 ^ 53) as Hpow
    by (rewrite <- Z.pow_add_r by lia; f_equal; lia).
  assert (0 < 2 ^ (53 - d)) by (apply Z.pow_pos_nonneg; lia).
  nia.
Qed.

(** [float64(n)] of a 64-bit integer is zero or finite, its mantissa below
    [2^65] and its exponent at most 128. *)
Lemma of_int_finite (n : Z) :
  - 2 ^ 63 <= n <= 2 ^ 63 -> finite_within 65 128 (of_int n).
Proof.
  intros Hn. unfold of_int, binary_normalize.
  destruct n as [|p|p]; [done| |]; unfold binary_round.
  all: pose proof (shl_align_bounds p ltac:(lia)) as Hb.
  all: destruct (shl_align p 0 _) as [mz ez]; simpl in Hb.
  all: eapply finite_within_mono; [| |apply (binary_round_aux_finite _ _ _ 64)]; lia.
Qed.

Lemma Pow_1000_neg3_value : Pow_1000_neg3 = S754_finite false 4835703278458517 (-82).
Proof. vm_compute. reflexivity. Qed.

(** The product of a 64-bit integer by [10^-9] does not overflow. *)
Lemma seconds_finite (n : Z) :
  - 2 ^ 63 <= n <= 2 ^ 63 ->
  finite_within 119 971 (mul (of_int n) Pow_1000_neg3).
Proof.
  intros Hn. pose proof (of_int_finite n Hn) as Hx.
  rewrite Pow_1000_neg3_value. unfold mul.
  destruct (of_int n) as [s| | |s m e]; simpl in Hx; try done.
  destruct Hx as [Hm He]. unfold SFmul.
  eapply finite_within_mono; [| |apply (binary_round_aux_finite _ _ _ 118)]; lia.
Qed.

(** [div_nearest_even a d] is a nearest integer to the quotient of [a] by
    [d]. *)
Lemma div_nearest_even_nearest (a d : Z) :
  0 < d -> 2 * Z.abs (div_nearest_even a d * d - a) <= d.
Proof.
  intros Hd. unfold div_nearest_even.
  pose proof (Z.div_mod a d ltac:(lia)) as Hdm.
  pose proof (Z.mod_pos_bound a d Hd) as Hr.
  destruct (2 * (a mod d) ?= d) eqn:Hc;
    [apply Z.compare_eq in Hc | rewrite Z.compare_lt_iff in Hc
     | rewrite Z.compare_gt_iff in Hc];
    try destruct (Z.even (a / d)); nia.
Qed.

Lemma div_nearest_even_nonneg (a d : Z) : 0 <= a -> 0 < d -> 0 <= div_nearest_even a d.
Proof.
  intros Ha Hd. unfold div_nearest_even.
  assert (0 <= a / d) by (apply Z.div_pos; lia).
  destruct (2 * (a mod d) ?= d); try destruct (Z.even (a / d)); lia.
Qed.

Lemma thousandths_nonneg (m : positive) (e : Z) : 0 <= thousandths m e.
Proof.
  unfold thousandths. destruct (0 <=? e) eqn:He.
  - apply Z.leb_le in He. assert (0 < 2 ^ e) by (apply Z.pow_pos_nonneg; lia). nia.
  - apply Z.leb_gt in He. apply div_nearest_even_nonneg; [lia|].
    apply Z.pow_pos_nonneg; lia.
Qed.

End Float64Facts.

Section TextFacts.
Import Text.

Lemma digit_is_digit (d : Z) : 0 <= d <= 9 -> is_digit (digit d) = true.
Proof.
  intros Hd.
  assert (exists k, (k < 10)%nat /\ d = Z.of_nat k) as (k & Hk & ->).
  { exists (Z.to_nat d). lia. }
  do 10 (destruct k as [|k]; [reflexivity|]). lia.
Qed.

Lemma NilEmpty_digits (d : Decimal.uint) :
  all_digits (NilEmpty.string_of_uint d) = true.
Proof. induction d; simpl; auto. Qed.

(** The decimal numeral of a natural number: digits only, at least one. *)
Lemma itoa_digits (n : Z) : all_digits (itoa n) = true /\ itoa n <> ""%string.
Proof.
  unfold itoa, NilZero.string_of_uint.
  destruct (N.to_uint (Z.to_N n)) eqn:Hd; try done;
    rewrite <- Hd at 1; (split; [rewrite Hd; apply NilEmpty_digits | done]).
Qed.

Lemma is_digit_not_point (c : ascii) : is_digit c = true -> Ascii.eqb c "." = false.
Proof.
  intros Hc. apply Ascii.eqb_neq. intros ->. discriminate Hc.
Qed.

Lemma digits_point_three_app (ip t : string) (seen : bool) :
  all_digits ip = true -> seen = true \/ ip <> ""%string ->
  digits_point_three seen (ip +:+ String "." t) = three_digits t.
Proof.
  revert seen. induction ip as [|c ip IH]; intros seen Hip Hseen; simpl in *.
  - destruct Hseen as [->|]; done.
  - apply andb_prop in Hip as [Hc Hip].
    rewrite is_digit_not_point, Hc by done. simpl. apply IH; auto.
Qed.

Lemma is_fixed3_unsigned (c : ascii) (s : string) :
  is_digit c = true -> is_fixed3 (String c s) = digits_point_three false (String c s).
Proof.
  intros Hc. unfold is_fixed3.
  destruct c as [[] [] [] [] [] [] [] []]; try reflexivity; discriminate Hc.
Qed.

Lemma sign_digits_point_three (neg : bool) (ip t : string) :
  all_digits ip = true -> ip <> ""%string -> three_digits t = true ->
  is_fixed3 ((if neg then "-" else "") +:+ ip +:+ "." +:+ t) = true.
Proof.
  intros Hd Hne H3. destruct neg.
  - change (is_fixed3 ("-" +:+ ip +:+ "." +:+ t))
      with (digits_point_three false (ip +:+ String "." t)).
    rewrite digits_point_three_app; auto.
  - change (is_fixed3 ("" +:+ ip +:+ "." +:+ t))
      with (is_fixed3 (ip +:+ String "." t)).
    destruct ip as [|c ip]; [done|].
    cbn [all_digits] in Hd. apply andb_prop in Hd as [Hc Hip].
    change (String c ip +:+ String "." t) with (String c (ip +:+ String "." t)).
    rewrite is_fixed3_unsigned by done.
    change (String c (ip +:+ String "." t)) with (String c ip +:+ String "." t).
    rewrite digits_point_three_app; auto.
    cbn [all_digits]. by rewrite Hc, Hip.
Qed.

(** A sign, a numeral, a point and three digits make a fixed-point
    decimal. *)
Lemma fixed3_is_fixed3 (neg : bool) (n : Z) :
  0 <= n -> is_fixed3 (Float64.fixed3 neg n) = true.
Proof.
  intros Hn. unfold Float64.fixed3.
  destruct (itoa_digits (n / 1000)) as [Hd Hne].
  apply sign_digits_point_three; [done..|].
  cbn [three_digits]. rewrite !digit_is_digit; [done|..].
  - pose proof (Z.mod_pos_bound n 10). lia.
  - pose proof (Z.mod_pos_bound n 100 ltac:(lia)).
    split; [apply Z.div_pos; lia | apply Z.lt_succ_r, Z.div_lt_upper_bound; lia].
  - pose proof (Z.mod_pos_bound n 1000 ltac:(lia)).
    split; [apply Z.div_pos; lia | apply Z.lt_succ_r, Z.div_lt_upper_bound; lia].
Qed.

End TextFacts.

(** C3, as stated, fails: 999999 ns is rendered ["0.001"], rounded up from
    0.000999999, where truncation gives ["0.000"]. *)
Lemma nanoSecondsToSeconds_rounds_up :
  nanoSecondsToSeconds 999999 = "0.001"%string
  /\ nanoSecondsToSeconds 999999 <> truncated_seconds 999999.
Proof. split; [vm_compute; reflexivity | vm_compute; discriminate]. Qed.

(** C3, amended. For every 64-bit count of nanoseconds the result is a
    decimal with exactly three fractional digits: the binary64 product of
    the count by [10^-9], rounded to a nearest thousandth, behind its sign;
    and 1500000000000000000 ns gives ["1500000000.000"]. *)
Theorem nanoSecondsToSeconds_three_decimals (nanoseconds : Z) :
  int64_range nanoseconds ->
  Text.is_fixed3 (nanoSecondsToSeconds nanoseconds) = true
  /\ (exists neg n,
        nanoSecondsToSeconds nanoseconds = Float64.fixed3 neg n
        /\ nearest_thousandth
             (Float64.mul (Float64.of_int nanoseconds) Float64.Pow_1000_neg3) n)
  /\ nanoSecondsToSeconds 1500000000000000000 = "1500000000.000"%string.
Proof.
  intros Hn. unfold int64_range in Hn.
  pose proof (seconds_finite nanoseconds ltac:(lia)) as Hfin.
  unfold nanoSecondsToSeconds. cbv zeta.
  destruct (Float64.mul _ _) as [s| | |s m e]; simpl in Hfin; try done.
  - split; [apply fixed3_is_fixed3; lia|]. split; [|vm_compute; reflexivity].
    exists s, 0. by split.
  - split; [apply fixed3_is_fixed3, thousandths_nonneg|]. split; [|vm_compute; reflexivity].
    exists s, (Float64.thousandths m e). split; [done|].
    unfold nearest_thousandth, Float64.thousandths.
    destruct (0 <=? e) eqn:He.
    + apply Z.leb_le in He. rewrite (Z.max_r (- e)), (Z.max_l e) by lia.
      rewrite Z.pow_0_r, Z.mul_1_r.
      replace (_ - _) with 0 by lia. rewrite Z.abs_0. lia.
    + apply Z.leb_gt in He. rewrite (Z.max_l (- e)), (Z.max_r e) by lia.
      rewrite Z.pow_0_r, Z.mul_1_r.
      apply div_nearest_even_nearest, Z.pow_pos_nonneg; lia.
Qed.

Lemma nanoSecondsToSeconds_three_decimals_witness :
  int64_range 999999
  /\ Text.is_fixed3 (nanoSecondsToSeconds 999999) = true
  /\ exists neg n,
       nanoSecondsToSeconds 999999 = Float64.fixed3 neg n
       /\ nearest_thousandth
            (Float64.mul (Float64.of_int 999999) Float64.Pow_1000_neg3) n.
Proof.
  assert (int64_range 999999) as Hr by (unfold int64_range; lia).
  destruct (nanoSecondsToSeconds_three_decimals 999999 Hr) as (Hshape & Hnear & _).
  split; [exact Hr | split; [exact Hshape | exact Hnear]].
Defined.

(** * Further properties of the forwarder *)

(** X1. The forwarder built by [NewSplunkForwarder] includes a kind exactly
    when the kind is among the selected ones, however often and in whatever
    order it is listed, and starts with an empty batch. *)
Theorem NewSplunkForwarder_includes_selected {C} (client : C)
    (selectedEventTypes : list Envelope_EventType) (log : list string)
    (t : Envelope_EventType) :
  map_index (includedEventTypes (NewSplunkForwarder client selectedEventTypes log)) t
  = bool_decide (t ∈ selectedEventTypes)
  /\ batch (NewSplunkForwarder client selectedEventTypes log) = [].
Proof.
  split; [|done]. unfold NewSplunkForwarder. cbn [includedEventTypes].
  rewrite selected_index.
  assert (forall b, b || false = b) as Hor by (by intros []).
  destruct t; apply Hor.
Qed.

Section ForwarderInvariants.
Context `{EnumNames} `{SplunkClient C}.
Implicit Types (s : SplunkNozzle C) (event : Envelope.t).

Lemma onTick_included s : includedEventTypes (onTick s) = includedEventTypes s.
Proof.
  destruct (decide (batch s = [])) as [Hb|Hb].
  - by rewrite onTick_empty.
  - by rewrite onTick_nonempty.
Qed.

End ForwarderInvariants.

(** X2. The selection is fixed for the life of the loop: whatever [Run]
    receives, envelopes, ticks or an error, the included kinds at the end are
    those of the start. *)
Theorem Run_keeps_selection `{EnumNames} `{SplunkClient C}
    (s : SplunkNozzle C) (received : list Received) :
  includedEventTypes (fst (Run s received)) = includedEventTypes s.
Proof.
  revert s. induction received as [|[err|event|] received IH]; intros s; simpl; [done..| |].
  - by rewrite IH, handleEvent_included.
  - by rewrite IH, onTick_included.
Qed.

Section Conservation.
Context `{EnumNames} `{SplunkClient C}.
Implicit Types (s : SplunkNozzle (Recording C)).

(** What an envelope adds to the batch depends on the selection and on the
    envelope alone. *)
Lemma handleEvent_same_records {C1 C2} (s1 : SplunkNozzle C1) (s2 : SplunkNozzle C2)
    (event : Envelope.t) :
  includedEventTypes s1 = includedEventTypes s2 ->
  exists d, batch (handleEvent s1 event) = batch s1 ++ d
            /\ batch (handleEvent s2 event) = batch s2 ++ d.
Proof.
  intros Hinc. unfold handleEvent. rewrite Hinc.
  destruct (map_index _ _); simpl; [|exists []; by rewrite !app_nil_r].
  destruct (Envelope.GetEventType event); simpl;
    first [by eexists [_] | exists []; by rewrite !app_nil_r].
Qed.

End Conservation.

Section Conservation2.
Context `{EnumNames} `{SplunkClient C}.
Implicit Types (s : SplunkNozzle (Recording C)).

Lemma posted_PostBatch (c : Recording C) (b : list SplunkEvent.t) :
  posted (fst (PostBatch c b)) = posted c ++ [b].
Proof.
  unfold PostBatch at 1. unfold Recording_SplunkClient.
  by destruct (PostBatch (inner c) b).
Qed.

(** Without ticks, what a stretch of communications adds to the batch does
    not depend on the batch or the client it starts from. *)
Lemma Run_same_records (s1 s2 : SplunkNozzle (Recording C)) (received : list Received) :
  forallb (fun r => negb (is_RecvTick r)) received = true ->
  includedEventTypes s1 = includedEventTypes s2 ->
  exists d, batch (fst (Run s1 received)) = batch s1 ++ d
            /\ batch (fst (Run s2 received)) = batch s2 ++ d.
Proof.
  revert s1 s2. induction received as [|[err|event|] received IH];
    intros s1 s2 Hrec Hinc; simpl in *; try done.
  - exists []. by rewrite !app_nil_r.
  - exists []. by rewrite !app_nil_r.
  - destruct (handleEvent_same_records s1 s2 event Hinc) as (d & Hd1 & Hd2).
    destruct (IH (handleEvent s1 event) (handleEvent s2 event) Hrec) as (d' & Hd1' & Hd2').
    { by rewrite !handleEvent_included. }
    exists (d ++ d'). rewrite Hd1', Hd2', Hd1, Hd2. by rewrite !app_assoc.
Qed.

Lemma onTick_stream s :
  concat (posted (splunkClient (onTick s))) ++ batch (onTick s)
  = concat (posted (splunkClient s)) ++ batch s.
Proof.
  destruct (decide (batch s = [])) as [Hb|Hb].
  - by rewrite onTick_empty.
  - rewrite onTick_nonempty by done. simpl.
    rewrite posted_PostBatch, concat_app. simpl. by rewrite !app_nil_r.
Qed.

End Conservation2.

(** X3. Flushing loses, repeats and reorders nothing. Through a client that
    keeps what it is handed, the batches posted so far followed by the batch
    still held are, at any point of any run, the records the same
    communications would have accumulated had no tick fired. *)
Theorem Run_conserves_records `{EnumNames} `{SplunkClient C}
    (s : SplunkNozzle (Recording C)) (received : list Received) :
  let s' := fst (Run s received) in
  let unflushed := fst (Run s (List.filter (fun r => negb (is_RecvTick r)) received)) in
  concat (posted (splunkClient s')) ++ batch s'
  = concat (posted (splunkClient s)) ++ batch unflushed.
Proof.
  revert s. induction received as [|[err|event|] received IH]; intros s; simpl; try done.
  - rewrite IH. by rewrite handleEvent_client.
  - rewrite IH.
    set (rest := List.filter _ received).
    assert (forallb (fun r => negb (is_RecvTick r)) rest = true) as Hrest.
    { apply forallb_forall. intros r Hr. subst rest.
      by apply filter_In in Hr as [_ Hr]. }
    destruct (Run_same_records (onTick s) s rest Hrest (onTick_included s))
      as (d & Hd1 & Hd2).
    rewrite Hd1, Hd2, !app_assoc. f_equal. apply onTick_stream.
Qed.

(** X4. Only non-empty batches reach the client, and each post is announced
    by one log line giving its size: over any run, the batches posted and the
    lines logged grow together, post by post. *)
Theorem Run_posts_nonempty_and_logged `{EnumNames} `{SplunkClient C}
    (s : SplunkNozzle (Recording C)) (received : list Received) :
  let s' := fst (Run s received) in
  exists new,
    posted (splunkClient s') = posted (splunkClient s) ++ new
    /\ Forall (fun b => b <> []) new
    /\ logger s' = logger s ++ map posting_line new.
Proof.
  revert s. induction received as [|[err|event|] received IH]; intros s; simpl.
  - exists []. by rewrite !app_nil_r.
  - exists []. by rewrite !app_nil_r.
  - destruct (IH (handleEvent s event)) as (new & Hp & Hne & Hl).
    exists new. rewrite Hp, Hl, handleEvent_client, handleEvent_logger. auto.
  - destruct (IH (onTick s)) as (new & Hp & Hne & Hl).
    destruct (decide (batch s = [])) as [Hb|Hb].
    + rewrite (onTick_empty s Hb) in *. exists new. auto.
    + rewrite (onTick_nonempty s Hb) in *. simpl in Hp, Hl.
      rewrite posted_PostBatch in Hp.
      exists (batch s :: new). rewrite Hp, Hl. simpl.
      split; [by rewrite <- app_assoc|]. split; [by constructor|]. by rewrite <- app_assoc.
Qed.

(** * Further properties of the timestamp text *)

Section SecondsFacts.
Import Float64.

(** Rounding gives the sign it is asked for. *)
Lemma binary_round_aux_sign (sx : bool) (mx ex : Z) (l : location) :
  match binary_round_aux prec emax sx mx ex l with
  | S754_zero s | S754_infinity s | S754_finite s _ _ => s = sx
  | S754_nan => True
  end.
Proof.
  unfold binary_round_aux.
  destruct (shr_fexp prec emax mx ex l) as [mrs' e'].
  destruct (shr_fexp prec emax _ e' loc_Exact) as [mrs'' e''].
  destruct (shr_m mrs''); try done. by destruct (e'' <=? emax - prec).
Qed.

(** The seconds computed from a 64-bit count are zero or finite, and
    negative exactly when the count is. *)
Lemma seconds_sign (n : Z) :
  - 2 ^ 63 <= n <= 2 ^ 63 ->
  match mul (of_int n) Pow_1000_neg3 with
  | S754_zero s | S754_finite s _ _ => s = (n <? 0)
  | _ => False
  end.
Proof.
  intros Hn. pose proof (seconds_finite n Hn) as Hfin.
  assert (match of_int n with
          | S754_zero s | S754_infinity s | S754_finite s _ _ => s = (n <? 0)
          | S754_nan => True
          end) as Hs.
  { unfold of_int, binary_normalize. destruct n as [|p|p]; [done| |];
      unfold binary_round; destruct (shl_align _ _ _) as [mz ez];
      apply binary_round_aux_sign. }
  revert Hfin. rewrite Pow_1000_neg3_value. unfold mul.
  destruct (of_int n) as [s| | |s m e]; simpl SFmul.
  - intros _. subst s. by destruct (n <? 0).
  - done.
  - done.
  - subst s. intros Hfin.
    pose proof (binary_round_aux_sign (xorb (n <? 0) false)
                  (Zpos (m * 4835703278458517)) (e + -82) loc_Exact) as Hr.
    destruct (binary_round_aux _ _ _ _ _ _); try done; by destruct (n <? 0).
Qed.

Lemma seconds_text_fixed3 (n : Z) :
  int64_range n -> Text.is_fixed3 (nanoSecondsToSeconds n) = true.
Proof.
  intros Hn. unfold int64_range in Hn.
  pose proof (seconds_finite n ltac:(lia)) as Hfin.
  unfold nanoSecondsToSeconds. cbv zeta.
  destruct (mul _ _); try done.
  - apply fixed3_is_fixed3. lia.
  - apply fixed3_is_fixed3, thousandths_nonneg.
Qed.

Lemma fixed3_starts_with_minus (neg : bool) (n : Z) :
  starts_with_minus (fixed3 neg n) = neg.
Proof.
  unfold fixed3. destruct neg; [reflexivity|].
  destruct (itoa_digits (n / 1000)) as [Hd Hne].
  change ("" +:+ ?s) with s.
  destruct (Text.itoa (n / 1000)) as [|c ip]; [done|].
  cbn [Text.all_digits] in Hd. apply andb_prop in Hd as [Hc _].
  change (starts_with_minus (String c ip +:+ _)) with (Ascii.eqb c "-").
  apply Ascii.eqb_neq. intros ->. discriminate Hc.
Qed.

End SecondsFacts.

(** X9. The text of a 64-bit count of nanoseconds begins with a minus sign
    exactly when the count is negative, also when it rounds to zero: -1 ns
    is ["-0.000"]. *)
Theorem nanoSecondsToSeconds_sign (nanoseconds : Z) :
  int64_range nanoseconds ->
  starts_with_minus (nanoSecondsToSeconds nanoseconds) = (nanoseconds <? 0).
Proof.
  intros Hn. unfold int64_range in Hn.
  pose proof (seconds_sign nanoseconds ltac:(lia)) as Hs.
  unfold nanoSecondsToSeconds. cbv zeta.
  destruct (Float64.mul _ _); try done; subst s; apply fixed3_starts_with_minus.
Qed.

Lemma nanoSecondsToSeconds_sign_witness :
  int64_range (-1)
  /\ nanoSecondsToSeconds (-1) = "-0.000"%string
  /\ starts_with_minus (nanoSecondsToSeconds (-1)) = true.
Proof.
  assert (int64_range (-1)) as Hr by (unfold int64_range; lia).
  split; [exact Hr|]. split; [vm_compute; reflexivity|].
  exact (nanoSecondsToSeconds_sign (-1) Hr).
Defined.

(** * Further properties of the records *)

(** X5. Every record [handleEvent] adds takes the envelope's address as its
    host and the envelope's job as its source, carries the envelope's
    deployment and index in its metric, and, when the envelope's timestamp is
    a 64-bit count, a time of the form [d...d.ddd] with an optional sign. *)
Theorem record_carries_envelope_fields `{EnumNames} {C} (s : SplunkNozzle C)
    (event : Envelope.t) (r : SplunkEvent.t) :
  batch (handleEvent s event) = batch s ++ [r] ->
  int64_range (Envelope.GetTimestamp event) ->
  SplunkEvent.Host r = Envelope.GetIp event
  /\ SplunkEvent.Source r = Envelope.GetJob event
  /\ Deployment <$> SplunkEvent.common r = Some (Envelope.GetDeployment event)
  /\ Index <$> SplunkEvent.common r = Some (Envelope.GetIndex event)
  /\ SplunkEvent.Time r = nanoSecondsToSeconds (Envelope.GetTimestamp event)
  /\ Text.is_fixed3 (SplunkEvent.Time r) = true.
Proof.
  intros Hr Hts.
  assert (SplunkEvent.Time r = nanoSecondsToSeconds (Envelope.GetTimestamp event)
          /\ SplunkEvent.Host r = Envelope.GetIp event
          /\ SplunkEvent.Source r = Envelope.GetJob event
          /\ Deployment <$> SplunkEvent.common r = Some (Envelope.GetDeployment event)
          /\ Index <$> SplunkEvent.common r = Some (Envelope.GetIndex event))
    as (Ht & Hh & Hs & Hd & Hi).
  { revert Hr. unfold handleEvent.
    destruct (map_index _ _); simpl.
    2:{ intros Hr. apply (f_equal length) in Hr. rewrite length_app in Hr. simpl in Hr. lia. }
    destruct (Envelope.GetEventType event); simpl; intros Hr.
    1,2: apply (f_equal length) in Hr; rewrite length_app in Hr; simpl in Hr; lia.
    all: apply app_inv_head in Hr; injection Hr as <-; done. }
  rewrite Ht. repeat split; try done. by apply seconds_text_fixed3.
Qed.

Lemma record_carries_envelope_fields_witness :
  let r := BuildLogMessageMetric Sample.logEnvelope in
  SplunkEvent.Host r = "10.0.0.1"%string
  /\ SplunkEvent.Source r = "router"%string
  /\ Deployment <$> SplunkEvent.common r = Some "cf"%string
  /\ Index <$> SplunkEvent.common r = Some "0"%string
  /\ SplunkEvent.Time r = nanoSecondsToSeconds 1500000000000000000
  /\ Text.is_fixed3 (SplunkEvent.Time r) = true.
Proof.
  intros r.
  apply (record_carries_envelope_fields Sample.forwarder Sample.logEnvelope r).
  - reflexivity.
  - unfold int64_range. simpl. lia.
Defined.

(** * Further properties of the identifier text *)

Section UuidInjective.
Import Bytes.

Lemma hex_value_hexdigit (n : Z) : 0 <= n < 16 -> hex_value (hexdigit n) = n.
Proof.
  intros Hn.
  assert (exists k, (k < 16)%nat /\ n = Z.of_nat k) as (k & Hk & ->).
  { exists (Z.to_nat n). lia. }
  do 16 (destruct k as [|k]; [reflexivity|]). lia.
Qed.

(** A byte is its two nibbles. *)
Lemma byte_of_nibbles (b : Z) : b = 16 * Z.shiftr b 4 + Z.land b 15.
Proof.
  rewrite Z.shiftr_div_pow2 by lia. change 15 with (Z.ones 4).
  rewrite Z.land_ones by lia. change (2 ^ 4) with 16. apply Z.div_mod. lia.
Qed.

Lemma high_nibble_range (b : Z) : is_byte b -> 0 <= Z.shiftr b 4 < 16.
Proof.
  unfold is_byte. intros Hb. rewrite Z.shiftr_div_pow2 by lia. change (2 ^ 4) with 16.
  split; [apply Z.div_pos; lia | apply Z.div_lt_upper_bound; lia].
Qed.

Lemma low_nibble_range (b : Z) : 0 <= Z.land b 15 < 16.
Proof.
  change 15 with (Z.ones 4). rewrite Z.land_ones by lia. apply Z.mod_pos_bound. lia.
Qed.

Lemma hex_Encode_inj (bs bs' : list Z) :
  Forall is_byte bs -> Forall is_byte bs' ->
  hex_Encode bs = hex_Encode bs' -> bs = bs'.
Proof.
  intros Hbs. revert bs'. induction Hbs as [|b bs Hb _ IH]; intros bs' Hbs' Heq.
  - destruct bs'; [done|discriminate].
  - destruct Hbs' as [|b' bs' Hb' Hbs']; [discriminate|].
    cbn [hex_Encode flat_map app] in Heq. injection Heq as Hhi Hlo Hrest.
    apply (f_equal hex_value) in Hhi, Hlo.
    rewrite !hex_value_hexdigit in Hhi by (by apply high_nibble_range).
    rewrite !hex_value_hexdigit in Hlo by apply low_nibble_range.
    f_equal; [|by apply IH].
    rewrite (byte_of_nibbles b), (byte_of_nibbles b'). lia.
Qed.

(** The bytes [PutUint64_le] writes spell the number back. *)
Lemma from_le_bytes (n : nat) (v : Z) :
  0 <= v < 256 ^ Z.of_nat n ->
  from_le (map (fun i => Z.land (Z.shiftr v (8 * Z.of_nat i)) 255) (seq 0 n)) = v.
Proof.
  revert v. induction n as [|n IH]; intros v Hv.
  - simpl in *. lia.
  - rewrite Nat2Z.inj_succ, Z.pow_succ_r in Hv by lia.
    cbn [seq map from_le fold_right]. rewrite <- seq_shift, map_map.
    fold (from_le (map (fun i => Z.land (Z.shiftr v (8 * Z.of_nat (S i))) 255) (seq 0 n))).
    rewrite (map_ext _ (fun i => Z.land (Z.shiftr (v / 256) (8 * Z.of_nat i)) 255)).
    + rewrite IH by (split; [apply Z.div_pos; lia | apply Z.div_lt_upper_bound; lia]).
      change (8 * Z.of_nat 0) with 0. rewrite Z.shiftr_0_r.
      change 255 with (Z.ones 8). rewrite Z.land_ones by lia.
      change (2 ^ 8) with 256. pose proof (Z.div_mod v 256). lia.
    + intros i. f_equal. rewrite !Z.shiftr_div_pow2 by lia.
      rewrite Z.div_div by (try apply Z.pow_pos_nonneg; lia).
      f_equal. change 256 with (2 ^ 8). rewrite <- Z.pow_add_r by lia. f_equal. lia.
Qed.

Lemma PutUint64_le_inj (v v' : Z) :
  uint64_range v -> uint64_range v' -> PutUint64_le v = PutUint64_le v' -> v = v'.
Proof.
  unfold uint64_range, PutUint64_le. intros Hv Hv' Heq.
  rewrite <- (from_le_bytes 8 v), <- (from_le_bytes 8 v') by (change (256 ^ Z.of_nat 8) with (2 ^ 64); lia).
  by rewrite Heq.
Qed.

(** The text of an identifier, group by group. *)
Lemma uuidToHex_groups (b : list Z) :
  length b = 16%nat ->
  write_at 24 (hex_Encode (slice 10 16 b))
    (write_at 23 [dashByte]
       (write_at 19 (hex_Encode (slice 8 10 b))
          (write_at 18 [dashByte]
             (write_at 14 (hex_Encode (slice 6 8 b))
                (write_at 13 [dashByte]
                   (write_at 9 (hex_Encode (slice 4 6 b))
                      (write_at 8 [dashByte]
                         (write_at 0 (hex_Encode (slice 0 4 b)) (repeat zero 36)))))))))
  = hex_Encode (slice 0 4 b) ++ dashByte :: hex_Encode (slice 4 6 b)
      ++ dashByte :: hex_Encode (slice 6 8 b) ++ dashByte :: hex_Encode (slice 8 10 b)
      ++ dashByte :: hex_Encode (slice 10 16 b).
Proof.
  intros Hlen.
  repeat (destruct b as [|? b]; simpl in Hlen; try discriminate Hlen).
  reflexivity.
Qed.

(** The five groups determine the sixteen bytes. *)
Lemma uuid_groups_inj (b1 b2 : list Z) :
  length b1 = 16%nat -> length b2 = 16%nat ->
  Forall is_byte b1 -> Forall is_byte b2 ->
  hex_Encode (slice 0 4 b1) ++ dashByte :: hex_Encode (slice 4 6 b1)
    ++ dashByte :: hex_Encode (slice 6 8 b1) ++ dashByte :: hex_Encode (slice 8 10 b1)
    ++ dashByte :: hex_Encode (slice 10 16 b1)
  = hex_Encode (slice 0 4 b2) ++ dashByte :: hex_Encode (slice 4 6 b2)
      ++ dashByte :: hex_Encode (slice 6 8 b2) ++ dashByte :: hex_Encode (slice 8 10 b2)
      ++ dashByte :: hex_Encode (slice 10 16 b2) ->
  b1 = b2.
Proof.
  intros Hb1 Hb2 Hbytes1 Hbytes2 Heq.
  assert (forall lo hi b, length b = 16%nat -> (hi <= 16)%nat ->
                          length (hex_Encode (slice lo hi b)) = (2 * (hi - lo))%nat)
    as Hlen.
  { intros lo hi b Hb Hhi. rewrite hex_Encode_length. unfold slice.
    rewrite length_take, length_drop. lia. }
  apply app_inj_1 in Heq as [Hg1 Heq]; [|by rewrite !Hlen by (first [assumption | lia])].
  injection Heq as Heq.
  apply app_inj_1 in Heq as [Hg2 Heq]; [|by rewrite !Hlen by (first [assumption | lia])].
  injection Heq as Heq.
  apply app_inj_1 in Heq as [Hg3 Heq]; [|by rewrite !Hlen by (first [assumption | lia])].
  injection Heq as Heq.
  apply app_inj_1 in Heq as [Hg4 Heq]; [|by rewrite !Hlen by (first [assumption | lia])].
  injection Heq as Hg5.
  apply hex_Encode_inj in Hg1, Hg2, Hg3, Hg4, Hg5; try by apply slice_bytes.
  assert (forall b : list Z, length b = 16%nat ->
            b = slice 0 4 b ++ slice 4 6 b ++ slice 6 8 b ++ slice 8 10 b ++ slice 10 16 b)
    as Hsplit.
  { intros b Hb. repeat (destruct b as [|? b]; simpl in Hb; try discriminate Hb).
    reflexivity. }
  rewrite (Hsplit b1 Hb1), (Hsplit b2 Hb2). by rewrite Hg1, Hg2, Hg3, Hg4, Hg5.
Qed.

End UuidInjective.

(** X7. Distinct identifiers never share a text: on pairs of 64-bit halves
    [uuidToHex] is injective, and no identifier has the text of the absent
    one. *)
Theorem uuidToHex_injective (u1 u2 : UUID) :
  uint64_range (Low u1) -> uint64_range (High u1) ->
  uint64_range (Low u2) -> uint64_range (High u2) ->
  uuidToHex (Some u1) <> uuidToHex None
  /\ (uuidToHex (Some u1) = uuidToHex (Some u2) -> u1 = u2).
Proof.
  intros Hl1 Hh1 Hl2 Hh2.
  assert (forall u, Forall is_byte (Bytes.PutUint64_le (Low u) ++ Bytes.PutUint64_le (High u)))
    as Hbytes by (intros u; apply Forall_app; split; apply PutUint64_le_bytes).
  assert (forall u, uuidToHex (Some u)
                    = string_of_list_ascii
                        (let b := Bytes.PutUint64_le (Low u) ++ Bytes.PutUint64_le (High u) in
                         Bytes.hex_Encode (Bytes.slice 0 4 b) ++ dashByte
                           :: Bytes.hex_Encode (Bytes.slice 4 6 b) ++ dashByte
                           :: Bytes.hex_Encode (Bytes.slice 6 8 b) ++ dashByte
                           :: Bytes.hex_Encode (Bytes.slice 8 10 b) ++ dashByte
                           :: Bytes.hex_Encode (Bytes.slice 10 16 b))) as Htext.
  { intros u. unfold uuidToHex. cbv zeta. by rewrite uuidToHex_groups. }
  split.
  - rewrite Htext. intros Heq. apply (f_equal String.length) in Heq. discriminate Heq.
  - rewrite !Htext. cbv zeta. intros Heq.
    apply (f_equal list_ascii_of_string) in Heq.
    rewrite !list_ascii_of_string_of_list_ascii in Heq.
    apply uuid_groups_inj in Heq; [|reflexivity|reflexivity|apply Hbytes..].
    rename Heq into Hb.
    apply app_inj_1 in Hb as [Hlow Hhigh]; [|reflexivity].
    apply PutUint64_le_inj in Hlow, Hhigh; try done.
    destruct u1, u2; simpl in *; by subst.
Qed.

Lemma uuidToHex_injective_witness :
  uuidToHex (Some {| Low := 1; High := 2 |}) <> ""%string
  /\ (uuidToHex (Some {| Low := 1; High := 2 |}) = uuidToHex (Some {| Low := 1; High := 2 |})
      -> {| Low := 1; High := 2 |} = {| Low := 1; High := 2 |}).
Proof.
  apply (uuidToHex_injective {| Low := 1; High := 2 |} {| Low := 1; High := 2 |});
    unfold uint64_range; simpl; lia.
Defined.

(** X6. One record per selected envelope: over a stretch of envelopes the
    batch grows by exactly the number of envelopes whose kind is selected and
    is not one of the two bare HTTP kinds, and the client is not called. *)
Theorem batch_counts_selected_envelopes `{EnumNames} `{SplunkClient C}
    (s : SplunkNozzle C) (events : list Envelope.t) :
  let s' := fst (Run s (map RecvEvent events)) in
  length (batch s')
  = (length (batch s)
     + length (List.filter (builds_record (includedEventTypes s)) events))%nat
  /\ splunkClient s' = splunkClient s.
Proof.
  revert s. induction events as [|event events IH]; intros s; simpl.
  - split; [lia|done].
  - destruct (IH (handleEvent s event)) as [Hlen Hclient].
    rewrite Hlen, Hclient, handleEvent_included, handleEvent_client. split; [|done].
    unfold handleEvent, builds_record.
    destruct (map_index _ _); simpl; [|lia].
    destruct (Envelope.GetEventType event); simpl; rewrite ?length_app; simpl; lia.
Qed.

(** X8. The text spells the halves least significant byte first: its first
    two digits are the lowest byte of [Low], its last two the highest byte of
    [High]. *)
Theorem uuidToHex_least_significant_first (low high : Z) :
  let text := uuidToHex (Some {| Low := low; High := high |}) in
  String.substring 0 2 text = hex_byte (Z.land low 255)
  /\ String.substring 34 2 text = hex_byte (Z.land (Z.shiftr high 56) 255).
Proof.
  cbv zeta. unfold uuidToHex. cbv zeta. rewrite uuidToHex_groups by reflexivity.
  cbn [Low High]. unfold Bytes.PutUint64_le.
  cbn [seq map app Bytes.slice Nat.sub skipn firstn Bytes.hex_Encode flat_map
       string_of_list_ascii String.substring].
  change (8 * Z.of_nat 0) with 0. change (8 * Z.of_nat 7) with 56.
  rewrite Z.shiftr_0_r. done.
Qed.

(** * Further properties of the sink wiring *)

Section SinkWiring.
Import splunknozzle.

Lemma for_lt_append_Forall {A} (n : Z) (w : Z -> A) (P : A -> Prop) :
  (forall i, P (w i)) -> Forall P (for_lt n (fun i acc => acc ++ [w i]) []).
Proof.
  intros Hw. unfold for_lt.
  assert (forall l acc, Forall P acc ->
             Forall P (fold_left (fun acc i => acc ++ [w (Z.of_nat i)]) l acc)) as Hfold.
  { induction l as [|i l IH]; intros acc Hacc; simpl; [done|].
    apply IH, Forall_app. split; [done|]. by constructor. }
  by apply Hfold.
Qed.

(** [EventSink] returns a sink exactly when the extra fields parse, and the
    error of the parser otherwise. *)
Lemma EventSink_result (ParseExtraFields : string -> list (string * string) * error)
    (nozzleUUID : string) (config : Config) :
  match EventSink ParseExtraFields nozzleUUID config with
  | (Some sink, None) =>
      snd (ParseExtraFields (ExtraFields config)) = None
      /\ opened sink = true
      /\ started sink = (if 0 <? StatusMonitorInterval config then [LogStatus] else [])
  | (None, Some e) => snd (ParseExtraFields (ExtraFields config)) = Some e
  | _ => False
  end.
Proof.
  unfold EventSink. by destruct (ParseExtraFields _) as [fields [e|]].
Qed.

End SinkWiring.

(** X10. For any [int] value of [HecWorkers] the sink is built from
    [HecWorkers + 1] writers computed in 64 bits, none when that is not
    positive: there is no writer exactly when [HecWorkers] is negative or is
    the largest [int], whose successor wraps around. All writers are alike:
    the configured host and the same two counters. *)
Theorem sink_writers_for_any_HecWorkers
    (ParseExtraFields : string -> list (string * string) * error) (nozzleUUID : string)
    (config : splunknozzle.Config) (sink : splunknozzle.Sink) :
  int_range (splunknozzle.HecWorkers config) ->
  fst (splunknozzle.EventSink ParseExtraFields nozzleUUID config) = Some sink ->
  length (splunknozzle.writers sink)
  = Z.to_nat (splunknozzle.wrap_int (splunknozzle.HecWorkers config + 1))
  /\ (splunknozzle.writers sink = []
      <-> splunknozzle.HecWorkers config <= -1
          \/ splunknozzle.HecWorkers config = 2 ^ 63 - 1)
  /\ Forall (fun w => w = {| splunknozzle.Host := splunknozzle.SplunkHost config;
                             splunknozzle.SentEventCount := "splunk.events.sent.count";
                             splunknozzle.BodyBufferSize := "splunk.events.throughput" |})
       (splunknozzle.writers sink).
Proof.
  unfold int_range. intros Hn Hsink. unfold splunknozzle.EventSink in Hsink.
  destruct (ParseExtraFields _) as [fields [e|]]; simpl in Hsink; [discriminate|].
  injection Hsink as <-. cbn [splunknozzle.writers].
  split; [apply for_lt_append_length|]. split; [|by apply for_lt_append_Forall].
  rewrite <- length_zero_iff_nil, for_lt_append_length.
  unfold splunknozzle.wrap_int.
  destruct (Z.eq_dec (splunknozzle.HecWorkers config) (2 ^ 63 - 1)) as [->|Hmax].
  - split; [by right|]. intros _. reflexivity.
  - rewrite Z.mod_small by lia. lia.
Qed.

Lemma sink_writers_for_any_HecWorkers_witness :
  exists sink,
    fst (splunknozzle.EventSink NozzleSample.noExtraFields "uuid" NozzleSample.sinkConfig)
    = Some sink
    /\ splunknozzle.writers sink = [].
Proof.
  eexists. split; [reflexivity|].
  apply (sink_writers_for_any_HecWorkers NozzleSample.noExtraFields "uuid"
           NozzleSample.sinkConfig).
  - unfold int_range. simpl. lia.
  - reflexivity.
  - left. simpl. lia.
Defined.

(** * Properties of the other constructors and of the orchestration *)

(** X12. Enrichment never runs without a store: if the router is told to
    add any application field, [AppCache] asks for the boltdb cache; and
    with an empty [AddAppInfo] it takes the cache that stores nothing, without
    error, and the router adds no field. *)
Theorem enrichment_needs_boltdb (ToLower : string -> string)
    (NewBoltdb : SplunkFirehoseNozzle.BoltdbConfig -> error)
    (config : SplunkFirehoseNozzle.Config) :
  ToLower "" = ""%string ->
  let router := SplunkFirehoseNozzle.EventRouter_config ToLower config in
  let flags :=
    SplunkFirehoseNozzle.AddAppName router || SplunkFirehoseNozzle.AddOrgName router
    || SplunkFirehoseNozzle.AddOrgGuid router || SplunkFirehoseNozzle.AddSpaceName router
    || SplunkFirehoseNozzle.AddSpaceGuid router in
  (flags = true ->
   exists c, fst (SplunkFirehoseNozzle.AppCache NewBoltdb config) = SplunkFirehoseNozzle.Boltdb c)
  /\ (SplunkFirehoseNozzle.AddAppInfo config = ""%string ->
      SplunkFirehoseNozzle.AppCache NewBoltdb config = (SplunkFirehoseNozzle.NoCache, None)
      /\ flags = false).
Proof.
  intros Hlower router flags. subst router flags.
  unfold SplunkFirehoseNozzle.EventRouter_config, SplunkFirehoseNozzle.AppCache.
  cbn [SplunkFirehoseNozzle.AddAppName SplunkFirehoseNozzle.AddOrgName
       SplunkFirehoseNozzle.AddOrgGuid SplunkFirehoseNozzle.AddSpaceName
       SplunkFirehoseNozzle.AddSpaceGuid].
  destruct (String.eqb_spec (SplunkFirehoseNozzle.AddAppInfo config) "") as [->|Hne];
    cbn [negb].
  - rewrite Hlower. split; [discriminate|]. done.
  - split; [by eexists|done].
Qed.

Lemma enrichment_needs_boltdb_witness :
  let router :=
    SplunkFirehoseNozzle.EventRouter_config SplunkFirehoseNozzle.ToLower_ascii
      NozzleSample.config in
  SplunkFirehoseNozzle.AddAppName router = true
  /\ SplunkFirehoseNozzle.AddOrgName router = true
  /\ SplunkFirehoseNozzle.AddSpaceName router = false
  /\ exists c,
       fst (SplunkFirehoseNozzle.AppCache (fun _ => None) NozzleSample.config)
       = SplunkFirehoseNozzle.Boltdb c.
Proof.
  intros router. split; [reflexivity|]. split; [reflexivity|]. split; [reflexivity|].
  apply (enrichment_needs_boltdb SplunkFirehoseNozzle.ToLower_ascii (fun _ => None)
           NozzleSample.config); reflexivity.
Defined.

Section Orchestration.
Import splunknozzle SplunkFirehoseNozzle.
Implicit Types (w : Collaborators) (config : Config).

(** X13. [Metric] gives a real monitor exactly when the status interval is
    positive and some metric is selected; it then watches memory and
    processor use and writes to the metric index, and a sink built from the
    same configuration has its status task running beside it. *)
Theorem monitor_runs_with_status_task w config (sink : Sink) :
  fst (EventSink (ParseExtraFields w) (nozzleUUID w) (SplunkFirehoseNozzle.sink config))
  = Some sink ->
  (Metric config <> NoMonitor
   <-> 0 < StatusMonitorInterval (SplunkFirehoseNozzle.sink config)
       /\ SelectedMonitoringMetrics config <> ""%string)
  /\ (Metric config <> NoMonitor ->
      Metric config
      = MetricsMonitor ["nozzle.usage.ram"; "nozzle.usage.cpu"]%string
          (SplunkMetricIndex (SplunkFirehoseNozzle.sink config))
          (StatusMonitorInterval (SplunkFirehoseNozzle.sink config))
          (SelectedMonitoringMetrics config)
      /\ started sink = [LogStatus]).
Proof.
  intros Hsink.
  pose proof (EventSink_result (ParseExtraFields w) (nozzleUUID w)
                (SplunkFirehoseNozzle.sink config)) as Hres.
  destruct (EventSink _ _ _) as [[snk|] [e|]]; try done. simpl in Hsink.
  injection Hsink as ->. destruct Hres as (_ & _ & Hstarted).
  unfold Metric.
  destruct (Z.ltb_spec 0 (StatusMonitorInterval (SplunkFirehoseNozzle.sink config)))
    as [Hpos|Hnpos];
    destruct (String.eqb_spec (SelectedMonitoringMetrics config) "") as [Hsel|Hsel];
    cbn [andb negb].
  - split; [split; [done|intros [_ ?]; done]|done].
  - split; [split; [done|done]|done].
  - split; [split; [done|intros [? _]; lia]|done].
  - split; [split; [done|intros [? _]; lia]|done].
Qed.

(** The trace of [Run] and the way it ends, case by case: the setup steps in
    order, each either failing or letting the next one run. *)
Ltac run_cases w config :=
  unfold SplunkFirehoseNozzle.Run, SplunkFirehoseNozzle.setup_error, EventRouter;
  pose proof (EventSink_result (ParseExtraFields w) (nozzleUUID w)
                (SplunkFirehoseNozzle.sink config)) as Hsink;
  destruct (NewClient w) as [e0|];
  destruct (AppCache (NewBoltdb w) config) as [appCache [e1|]];
  cbn [fst snd];
  destruct (Open w appCache) as [e2|];
  destruct (EventSink (ParseExtraFields w) (nozzleUUID w) (SplunkFirehoseNozzle.sink config))
    as [[eventSink|] [e3|]];
  cbn [fst snd];
  destruct (eventrouter_New w (EventRouter_config (ToLower w) config)) as [e4|];
  destruct (shutdown w);
  cbn [fst snd from_option app].


(** X15. The cache is closed exactly when it was opened and [Run] returns:
    then closing it is the last thing [Run] does, and it does so once. A
    cache that failed to open, or was never asked for, is not closed. *)
Theorem Run_closes_cache_iff_opened w config :
  let trace := fst (Run w config) in
  let closes := List.filter is_CacheClose trace in
  (existsb is_opened trace && is_Returned (snd (Run w config)) = true
   -> closes = [CallCacheClose] /\ last trace = Some CallCacheClose)
  /\ (existsb is_opened trace && is_Returned (snd (Run w config)) = false -> closes = []).
Proof.
  run_cases w config; try (by destruct Hsink); (split; intros Ho; [|done]);
    try discriminate Ho; done.
Qed.

(** X16. When the setup succeeds and a shutdown arrives, [Run] ends by
    stopping the monitor, closing the nozzle, closing the sink and, last,
    the cache, and returns what closing the sink returned; until a shutdown
    arrives it waits, with both goroutines started and nothing closed. *)
Theorem Run_shuts_down_in_order w config :
  setup_error w config = None ->
  exists sink before,
    fst (EventSink (ParseExtraFields w) (nozzleUUID w) (SplunkFirehoseNozzle.sink config))
    = Some sink
    /\ forallb (fun a => negb (is_started a || is_SinkClose a || is_CacheClose a)) before = true
    /\ Run w config
       = if shutdown w then
           (before ++ [GoNozzleStart; GoMetricStart; AwaitShutdown;
                       LogInfo "Splunk Nozzle is going to exit gracefully";
                       CallMetricStop; CallNozzleClose; CallSinkClose (Close w sink);
                       CallCacheClose],
            Returned (Close w sink))
         else (before ++ [GoNozzleStart; GoMetricStart; AwaitShutdown], Waiting).
Proof.
  run_cases w config; intros He; try discriminate He; try (by destruct Hsink).
  all: eexists _, [_; _; _; _; _; _; _].
  all: refine (conj eq_refl (conj _ eq_refl)); reflexivity.
Qed.

(** X17. A router that cannot be built leaves the sink behind: [Run] has
    created and opened the sink, returns the router's error, closes the
    cache, and never closes the sink. *)
Theorem Run_leaves_sink_open_when_router_fails w config (sink : Sink) (e : string) :
  NewClient w = None ->
  snd (AppCache (NewBoltdb w) config) = None ->
  Open w (fst (AppCache (NewBoltdb w) config)) = None ->
  fst (EventSink (ParseExtraFields w) (nozzleUUID w) (SplunkFirehoseNozzle.sink config))
  = Some sink ->
  EventRouter w config = Some e ->
  snd (Run w config) = Returned (Some e)
  /\ In (CallEventSink (Some sink) None) (fst (Run w config))
  /\ opened sink = true
  /\ forallb (fun a => negb (is_SinkClose a)) (fst (Run w config)) = true
  /\ last (fst (Run w config)) = Some CallCacheClose.
Proof.
  unfold EventRouter.
  run_cases w config; intros Hc Hcache Hopen Hsnk Hrouter;
    try discriminate; try (by destruct Hsink).
  all: injection Hsnk as ->; injection Hrouter as ->; destruct Hsink as (_ & Hopened & _).
  all: cbn; repeat split; try done; tauto.
Qed.

End Orchestration.

Lemma monitor_runs_with_status_task_witness :
  exists sink,
    fst (splunknozzle.EventSink NozzleSample.noExtraFields "uuid" NozzleSample.sinkConfig)
    = Some sink
    /\ SplunkFirehoseNozzle.Metric NozzleSample.config <> SplunkFirehoseNozzle.NoMonitor
    /\ splunknozzle.started sink = [splunknozzle.LogStatus].
Proof.
  eexists. split; [reflexivity|].
  destruct (monitor_runs_with_status_task NozzleSample.collaborators NozzleSample.config _
              eq_refl) as [Hiff Hmon].
  assert (SplunkFirehoseNozzle.Metric NozzleSample.config <> SplunkFirehoseNozzle.NoMonitor)
    as Hreal by (apply Hiff; split; [reflexivity | discriminate]).
  split; [exact Hreal | exact (proj2 (Hmon Hreal))].
Defined.


Lemma Run_closes_cache_iff_opened_witness :
  List.filter is_CacheClose
    (fst (SplunkFirehoseNozzle.Run NozzleSample.collaborators NozzleSample.config))
  = [SplunkFirehoseNozzle.CallCacheClose].
Proof.
  apply (Run_closes_cache_iff_opened NozzleSample.collaborators NozzleSample.config).
  reflexivity.
Defined.

Lemma Run_shuts_down_in_order_witness :
  exists sink before,
    fst (splunknozzle.EventSink NozzleSample.noExtraFields "uuid" NozzleSample.sinkConfig)
    = Some sink
    /\ forallb (fun a => negb (is_started a || is_SinkClose a || is_CacheClose a)) before = true
    /\ SplunkFirehoseNozzle.Run NozzleSample.collaborators NozzleSample.config
       = (before ++ [SplunkFirehoseNozzle.GoNozzleStart; SplunkFirehoseNozzle.GoMetricStart;
                     SplunkFirehoseNozzle.AwaitShutdown;
                     SplunkFirehoseNozzle.LogInfo "Splunk Nozzle is going to exit gracefully";
                     SplunkFirehoseNozzle.CallMetricStop; SplunkFirehoseNozzle.CallNozzleClose;
                     SplunkFirehoseNozzle.CallSinkClose None;
                     SplunkFirehoseNozzle.CallCacheClose],
          SplunkFirehoseNozzle.Returned None).
Proof.
  apply (Run_shuts_down_in_order NozzleSample.collaborators NozzleSample.config).
  reflexivity.
Defined.

Lemma Run_leaves_sink_open_when_router_fails_witness :
  exists sink,
    In (SplunkFirehoseNozzle.CallEventSink (Some sink) None)
      (fst (SplunkFirehoseNozzle.Run NozzleSample.routerFails NozzleSample.config))
    /\ splunknozzle.opened sink = true
    /\ forallb (fun a => negb (is_SinkClose a))
         (fst (SplunkFirehoseNozzle.Run NozzleSample.routerFails NozzleSample.config)) = true.
Proof.
  eexists.
  destruct (Run_leaves_sink_open_when_router_fails NozzleSample.routerFails
              NozzleSample.config _ "invalid event type" eq_refl eq_refl eq_refl eq_refl
              eq_refl) as (_ & Hin & Hopen & Hclose & _).
  split; [exact Hin | split; [exact Hopen | exact Hclose]].
Defined.
